(** * Pmahal: layer registry, order store and bounds aggregation

    A shallow embedding of [app.py] (the Flask application serving map
    layers built from uploaded shapefile archives) together with the
    properties of its ordering, deletion, upload and listing paths.

    Conventions of the embedding.
    - A Python [str] is a [string]: the bytes of its UTF-8 encoding.
      Byte-wise lexicographic comparison of UTF-8 coincides with the
      code-point comparison Python uses for [sorted] on [str].
    - A decoded JSON document is a [json] value.  A list read back from the
      order file or sent by a client may hold values that are not strings.
    - The module-level dictionary [layers] is an insertion-ordered
      association list ([pydict]); Python dictionaries have unique keys,
      which is the invariant [dict_wf].
    - Floating point numbers are [spec_float]s (IEEE 754 binary64 values),
      compared with [SFltb]; a comparison with NaN is false, as in Python.
    - Library calls that leave the program (zip extraction, shapefile
      parsing and reprojection, the bounding box of a feature collection,
      the random generator) are parameters of the development.
    - The disk is part of the state: the order file as reading it finds it,
      whether writing it succeeds and, when it does not, whether the file
      was already opened (and so truncated); the archives of the upload
      folder; the directories an uploaded file name can point into.  A
      handler that raises has an outcome of its own.
    - [jsonify] sorts the keys of every object it writes. *)

From Stdlib Require Import ZArith Ascii String Floats.SpecFloat Lia.
From stdpp Require Import base tactics option list sorting strings gmap.

Local Open Scope string_scope.
Local Open Scope list_scope.

(** ** JSON values *)

#[warnings="-register-all"]
Inductive json : Type :=
  | JNull
  | JBool (b : bool)
  | JInt (z : Z)
  | JFloat (f : spec_float)
  | JStr (s : string)
  | JList (l : list json)
  | JObj (o : list (string * json)).

(** [isinstance(n, str)], returning the string when it is one. *)
Definition as_str (n : json) : option string :=
  match n with
  | JStr s => Some s
  | _ => None
  end.

(** [n == s] for a string [s]: only the same string compares equal. *)
Definition json_eq_str (n : json) (s : string) : bool :=
  match n with
  | JStr t => bool_decide (t = s)
  | _ => false
  end.

(** [s in order] for a string [s] and a decoded JSON list [order]. *)
Definition str_in_json (s : string) (order : list json) : bool :=
  existsb (λ n, json_eq_str n s) order.

(** [n in names] for a JSON value [n] and a list of strings. *)
Definition json_in_strs (n : json) (names : list string) : bool :=
  existsb (json_eq_str n) names.

(** The strings of a decoded JSON list, in order. *)
Definition json_strs (order : list json) : list string := omap as_str order.

(** ** Python dictionaries (insertion ordered, unique keys) *)

Module PyDict.
Section dict.
Context {V : Type}.

Definition pydict := list (string * V).

Definition keys (d : pydict) : list string := d.*1.
Definition values (d : pydict) : list V := d.*2.

(** [d[k]]; [None] stands for [KeyError]. *)
Fixpoint get (k : string) (d : pydict) : option V :=
  match d with
  | [] => None
  | (k', v) :: r => if decide (k = k') then Some v else get k r
  end.

(** [d[k] = v]: an existing key keeps its position, a new key goes last. *)
Fixpoint set (k : string) (v : V) (d : pydict) : pydict :=
  match d with
  | [] => [(k, v)]
  | (k', v') :: r =>
      if decide (k = k') then (k', v) :: r else (k', v') :: set k v r
  end.

(** [d.pop(k)] for a key that is present. *)
Definition pop (k : string) (d : pydict) : pydict :=
  filter (λ kv, kv.1 ≠ k) d.

Definition dict_wf (d : pydict) : Prop := NoDup (keys d).
End dict.
Global Arguments pydict : clear implicits.
End PyDict.
Import PyDict.

(** ** Python list idioms used by the handlers *)

(** [if n not in acc: acc.append(n)] *)
Definition append_if_new (acc : list string) (n : string) : list string :=
  if bool_decide (n ∈ acc) then acc else acc ++ [n].

(** [sorted(present)] on strings: the ascending rearrangement of the list. *)
Definition sorted (l : list string) : list string := merge_sort String.le l.

(** ** The two ordering policies *)

(** Lines 186-189 of [get_layers]:
    [if n in present and n not in ordered: ordered.append(n)].
    Only a string can be [in present]. *)
Definition keep_known (present : list string) (ordered : list string) (n : json)
    : list string :=
  match as_str n with
  | Some s =>
      if json_in_strs n present && negb (bool_decide (s ∈ ordered))
      then ordered ++ [s] else ordered
  | None => ordered
  end.

(** Lines 185-193 of [get_layers]: the order shown by the listing. *)
Definition reconcile (saved_order : list json) (present : list string)
    : list string :=
  let ordered := foldl (keep_known present) [] saved_order in
  foldl append_if_new ordered (sorted present).

(** Lines 237-241 of [set_order]. *)
Definition clean_order (new_order : list json) (present : list string)
    : list string :=
  let cleaned :=
    omap (λ n, match as_str n with
               | Some s => if json_in_strs n present then Some s else None
               | None => None
               end) new_order in
  foldl append_if_new cleaned present.

(** Lines 140-142 of [upload_shapefiles] (and 316-318 at start-up):
    [if name not in order: order.append(name)]. *)
Definition append_missing (order : list json) (name : string) : list json :=
  if str_in_json name order then order else order ++ [JStr name].

Definition extend_order (order : list json) (names : list string) : list json :=
  foldl append_missing order names.

(** De-duplication keeping the first occurrence of every element: what a
    loop [if n not in acc: acc.append(n)] leaves of its input. *)
Fixpoint dedup_first (l : list string) : list string :=
  match l with
  | [] => []
  | x :: r => x :: filter (λ y, y ≠ x) (dedup_first r)
  end.

(** ** Path and file-name helpers ([os.path] on a POSIX host) *)

Definition sep : ascii := "/"%char.
Definition extsep : ascii := "."%char.

(** [p.rfind(c)], counting from index [i] for the first character. *)
Fixpoint rfind_from (c : ascii) (p : string) (i : nat) : option nat :=
  match p with
  | "" => None
  | String a r =>
      match rfind_from c r (S i) with
      | Some j => Some j
      | None => if decide (a = c) then Some i else None
      end
  end.

Definition rfind (c : ascii) (p : string) : Z :=
  match rfind_from c p 0 with
  | Some j => Z.of_nat j
  | None => (-1)%Z
  end.

(** [p[i:]] and [p[i:j]] for indices that are not negative. *)
Definition slice_from (i : Z) (p : string) : string :=
  String.substring (Z.to_nat i) (String.length p) p.
Definition slice (i j : Z) (p : string) : string :=
  String.substring (Z.to_nat i) (Z.to_nat (j - i)) p.

(** [os.path.basename(p)] *)
Definition basename (p : string) : string := slice_from (rfind sep p + 1) p.

(** [os.path.splitext(p)[0]]: the extension starts at the last dot of the
    last component, unless only dots come before it in that component. *)
Definition splitext_root (p : string) : string :=
  let sepIndex := rfind sep p in
  let dotIndex := rfind extsep p in
  if (sepIndex <? dotIndex)%Z then
    if existsb (λ c, negb (bool_decide (c = extsep)))
         (list_ascii_of_string (slice (sepIndex + 1) dotIndex p))
    then slice 0 dotIndex p
    else p
  else p.

(** [os.path.join(a, b)] *)
Definition path_join (a b : string) : string :=
  if String.prefix "/" b then b
  else if bool_decide (a = "") || String.prefix "/" (String.rev a) then a +:+ b
  else a +:+ "/" +:+ b.

(** [c.lower()] on an ASCII letter; other bytes are left alone. *)
Definition lower_ascii (c : ascii) : ascii :=
  let n := nat_of_ascii c in
  if (65 <=? n)%nat && (n <=? 90)%nat then ascii_of_nat (n + 32) else c.

Fixpoint lower (s : string) : string :=
  match s with
  | "" => ""
  | String a r => String (lower_ascii a) (lower r)
  end.

(** [s.endswith(suffix)] *)
Definition endswith (suffix s : string) : bool :=
  String.prefix (String.rev suffix) (String.rev s).

(** [file.filename.lower().endswith(".zip")].  No character outside ASCII
    lower-cases to one of the four characters of the suffix, so lowering the
    ASCII letters of the UTF-8 bytes decides the same test. *)
Definition is_zip_name (filename : string) : bool :=
  endswith ".zip" (lower filename).

(** ["{:06x}".format(n)] for [0 <= n <= 0xFFFFFF]: six hexadecimal digits. *)
Definition hex_digit (n : Z) : ascii :=
  let d := Z.to_nat (n mod 16) in
  if (d <? 10)%nat then ascii_of_nat (48 + d) else ascii_of_nat (87 + d).

Definition hex6 (n : Z) : string :=
  String (hex_digit (n / 1048576)) (String (hex_digit (n / 65536))
  (String (hex_digit (n / 4096)) (String (hex_digit (n / 256))
  (String (hex_digit (n / 16)) (String (hex_digit n) ""))))).

(** ** Configuration *)

Definition UPLOAD_FOLDER : string := "uploads".
Definition DEFAULT_LAYER_ORDER : list json := [JStr "P_Location"; JStr "Taluka"].

(** The float [0.7]. *)
Definition opacity_default : spec_float :=
  S754_finite false 6305039478318694 (-53).

(** ** The world outside the program

    [geo] is a GeoJSON feature collection as geopandas produces it.
    - [read_archive bytes] is lines 254-270 of [load_zip_into_layers]:
      extracting the archive, finding a [.shp] member, reading it and
      reprojecting it to EPSG:4326; [None] when no shapefile is found or any
      step raises.
    - [total_bounds g] is lines 202-203 of [get_layers]:
      [GeoDataFrame.from_features(...).total_bounds], or [None] when it
      raises.
    - [randint i] is the result of the [i]-th call of
      [random.randint(0, 0xFFFFFF)]. *)

Record bbox : Type := BBox {
  minx : spec_float;
  miny : spec_float;
  maxx : spec_float;
  maxy : spec_float
}.

Class World : Type := {
  geo : Type;
  read_archive : string → option geo;
  total_bounds : geo → option bbox;
  randint : nat → Z
}.

(** ** Process state *)

(** A value of the dictionary [layers]. *)
Record layer `{World} : Type := Layer {
  geojson : geo;
  color : string;
  opacity : spec_float;
  zip_path : string
}.

(** What opening and decoding [uploads/layer_order.json] gives. *)
Inductive order_file_state : Type :=
  | Missing                (* [os.path.exists(ORDER_FILE)] is false *)
  | Unreadable             (* [open] or the read raises *)
  | Malformed              (* [json.load] raises *)
  | Document (data : json) (* [json.load] returns [data] *).

(** The dictionary [layers] and the disk as the process finds it.
    - [order_file]: what reading the order file gives.
    - [order_writable]: writing the order file succeeds.
    - [fails_after_open]: when it does not succeed, the write fails after
      [open(ORDER_FILE, "wt")] has truncated the file (otherwise the file
      cannot be opened and is left alone).
    - [folder]: the archives by path.  An archive path ends in [.zip], so it
      is never the path of the order file.
    - [dirs]: the paths, as the program writes them, that name a directory
      in which a file can be created; the upload folder itself need not be
      listed.  No directory stands where an archive path points.
    - [draws]: the number of random draws made so far. *)
Record server `{World} : Type := Server {
  layers : pydict layer;
  order_file : order_file_state;
  order_writable : bool;
  fails_after_open : bool;
  folder : gmap string string;
  dirs : gset string;
  draws : nat
}.

Definition with_layers `{World} (s : server) (d : pydict layer) : server :=
  {| layers := d; order_file := order_file s;
     order_writable := order_writable s;
     fails_after_open := fails_after_open s;
     folder := folder s; dirs := dirs s; draws := draws s |}.
Definition with_order_file `{World} (s : server) (f : order_file_state) : server :=
  {| layers := layers s; order_file := f;
     order_writable := order_writable s;
     fails_after_open := fails_after_open s;
     folder := folder s; dirs := dirs s; draws := draws s |}.
Definition with_folder `{World} (s : server) (m : gmap string string) : server :=
  {| layers := layers s; order_file := order_file s;
     order_writable := order_writable s;
     fails_after_open := fails_after_open s;
     folder := m; dirs := dirs s; draws := draws s |}.

(** ** Order store *)

(** [load_saved_order()] *)
Definition load_saved_order `{World} (s : server) : list json :=
  match order_file s with
  | Document (JList data) => data
  | _ => DEFAULT_LAYER_ORDER
  end.

(** [save_order(order_list)]: the result and the state it leaves.  A write
    that fails after the file was opened leaves it empty or cut short, which
    [json.load] rejects. *)
Definition save_order `{World} (order_list : list json) (s : server)
    : bool * server :=
  if order_writable s
  then (true, with_order_file s (Document (JList order_list)))
  else if fails_after_open s
  then (false, with_order_file s Malformed)
  else (false, s).

(** ** Archive ingestion *)

(** [load_zip_into_layers(zip_path)] *)
Definition load_zip_into_layers `{World} (path : string) (s : server)
    : bool * server :=
  match folder s !! path with
  | None => (false, s)
  | Some bytes =>
      match read_archive bytes with
      | None => (false, s)
      | Some geojson_dict =>
          let layer_name := splitext_root (basename path) in
          let color := "#" +:+ hex6 (randint (draws s)) in
          let lyr := {| geojson := geojson_dict; color := color;
                        opacity := opacity_default; zip_path := path |} in
          (true, {| layers := set layer_name lyr (layers s);
                    order_file := order_file s;
                    order_writable := order_writable s;
                    fails_after_open := fails_after_open s;
                    folder := folder s;
                    dirs := dirs s;
                    draws := S (draws s) |})
      end
  end.

(** ** Upload *)

(** One uploaded file of the multipart form. *)
Record upload : Type := Upload {
  filename : string;
  content : string
}.

(** [request.files]: the file parts of the form by field name.
    [request.files.getlist("files")] and ["files" in request.files]. *)
Definition getlist (field : string) (form : list (string * upload)) : list upload :=
  (filter (λ p, p.1 = field) form).*2.

Inductive upload_response : Type :=
  | UploadForbidden                    (* 403 *)
  | UploadNoFiles                      (* 400 *)
  | Uploaded (uploaded failed : list string)
  | UploadRaised                       (* [file.save] raises: 500 *).

(** The text of a path before its last separator: the directory it names. *)
Definition parent (path : string) : string := slice 0 (rfind sep path) path.

(** [file.save(path)] opens [path] for writing, which raises when the
    directory the path names does not exist.  The upload folder exists
    (line 16). *)
Definition can_save `{World} (s : server) (path : string) : bool :=
  bool_decide (parent path = UPLOAD_FOLDER) || bool_decide (parent path ∈ dirs s).

(** The body of the loop of lines 126-137, on the two lists and the state.
    [file.save] is called outside any [try]: once it has raised ([None]) the
    rest of the loop does not run. *)
Definition upload_one `{World}
    (acc : option (list string * list string) * server) (file : upload)
    : option (list string * list string) * server :=
  match acc with
  | (None, s) => (None, s)
  | (Some (uploaded, failed), s) =>
      if negb (is_zip_name (filename file))
      then (Some (uploaded, failed ++ [filename file]), s)
      else
        let path := path_join UPLOAD_FOLDER (filename file) in
        if can_save s path
        then
          let s1 := with_folder s (<[path := content file]> (folder s)) in
          let '(ok, s2) := load_zip_into_layers path s1 in
          if ok
          then (Some (uploaded ++ [splitext_root (filename file)], failed), s2)
          else (Some (uploaded, failed ++ [filename file]), s2)
        else (None, s)
  end.

(** [upload_shapefiles()].  When the loop has raised, lines 139-145 do not
    run: what was registered stays registered and no order is saved. *)
Definition upload_shapefiles `{World} (admin : bool)
    (form : list (string * upload)) (s : server) : upload_response * server :=
  if negb admin then (UploadForbidden, s)
  else
    let files := getlist "files" form in
    match files with
    | [] => (UploadNoFiles, s)
    | _ =>
        match foldl upload_one (Some ([], []), s) files with
        | (Some (uploaded, failed), s1) =>
            let order := extend_order (load_saved_order s1) (keys (layers s1)) in
            (Uploaded uploaded failed, (save_order order s1).2)
        | (None, s1) => (UploadRaised, s1)
        end
    end.

(** ** Delete *)

Inductive delete_response : Type :=
  | DeleteForbidden   (* 403 *)
  | Deleted           (* 200 *)
  | LayerNotFound     (* 404 *).

(** [delete_layer(layer_name)] *)
Definition delete_layer `{World} (admin : bool) (layer_name : string)
    (s : server) : delete_response * server :=
  if negb admin then (DeleteForbidden, s)
  else
    match get layer_name (layers s) with
    | Some lyr =>
        let s1 := with_folder s (delete (zip_path lyr) (folder s)) in
        let s2 := with_layers s1 (pop layer_name (layers s1)) in
        let order := load_saved_order s2 in
        if str_in_json layer_name order
        then
          let order' := filter (λ n, json_eq_str n layer_name = false) order in
          (Deleted, (save_order order' s2).2)
        else (Deleted, s2)
    | None => (LayerNotFound, s)
    end.

(** ** Listing *)

(** [min(...)] and [max(...)] over a non-empty sequence of floats: the
    running value is replaced by an item that compares strictly below
    (above) it. *)
Definition py_min (first : spec_float) (rest : list spec_float) : spec_float :=
  foldl (λ best item, if SFltb item best then item else best) first rest.
Definition py_max (first : spec_float) (rest : list spec_float) : spec_float :=
  foldl (λ best item, if SFltb best item then item else best) first rest.

(** A rectangle [[[lat0, lon0], [lat1, lon1]]]. *)
Definition rect : Type := (spec_float * spec_float) * (spec_float * spec_float).

(** Lines 207-212 of [get_layers]. *)
Definition bounds_of (all_bounds : list bbox) : option rect :=
  match all_bounds with
  | [] => None
  | b :: r =>
      let minx' := py_min (minx b) (minx <$> r) in
      let miny' := py_min (miny b) (miny <$> r) in
      let maxx' := py_max (maxx b) (maxx <$> r) in
      let maxy' := py_max (maxy b) (maxy <$> r) in
      Some ((miny', minx'), (maxy', maxx'))
  end.

(** The comprehension [{name: layers[name] for name in ordered}], filling
    [acc]; [None] stands for [KeyError]. *)
Fixpoint layers_by_name {V : Type} (d : pydict V) (ordered : list string)
    (acc : pydict V) : option (pydict V) :=
  match ordered with
  | [] => Some acc
  | name :: r =>
      match get name d with
      | Some v => layers_by_name d r (set name v acc)
      | None => None
      end
  end.

(** The payload handed to [jsonify] by [get_layers]. *)
Record listing `{World} : Type := Listing {
  is_admin : bool;
  listed_layers : pydict layer;
  order : list string;
  bounds : option rect
}.

(** Lines 199-205 of [get_layers]: the bounds of the layers that give some. *)
Definition collect_bounds `{World} (ordered_layers : pydict layer) : list bbox :=
  omap (λ lyr, total_bounds (geojson lyr)) (values ordered_layers).

(** [get_layers()]; [None] when the handler raises. *)
Definition get_layers `{World} (admin : bool) (s : server) : option listing :=
  let saved_order := load_saved_order s in
  let present := keys (layers s) in
  let ordered := reconcile saved_order present in
  match layers_by_name (layers s) ordered [] with
  | None => None
  | Some ordered_layers =>
      let final_bounds :=
        match ordered_layers with
        | [] => None
        | _ => bounds_of (collect_bounds ordered_layers)
        end in
      Some {| is_admin := admin; listed_layers := ordered_layers;
              order := ordered; bounds := final_bounds |}
  end.

(** [jsonify] writes every object with its keys sorted (Flask's default
    [sort_keys]): the [layers] object as the response carries it.  Keys are
    distinct, so sorting the items is sorting by key. *)
Definition key_le {V : Type} (a b : string * V) : Prop := String.le a.1 b.1.

Global Instance key_le_dec {V : Type} : RelDecision (@key_le V).
Proof. intros a b. unfold key_le. apply _. Defined.

Definition sort_keys {V : Type} (d : pydict V) : pydict V := merge_sort key_le d.

Definition sent_layers `{World} (resp : listing) : pydict layer :=
  sort_keys (listed_layers resp).

(** ** Set order *)

(** Python truth value of a decoded JSON document. *)
Definition truthy (v : json) : bool :=
  match v with
  | JNull => false
  | JBool b => b
  | JInt z => negb (z =? 0)%Z
  | JFloat f => negb (SFeqb f (S754_zero false))
  | JStr s => negb (bool_decide (s = ""))
  | JList l => negb (bool_decide (l = []))
  | JObj o => negb (bool_decide (o = []))
  end.

Inductive set_order_response : Type :=
  | SetForbidden                      (* 403 *)
  | SetNotAList                       (* 400 *)
  | SetRaised                         (* [data.get] on a body that is no object *)
  | OrderSaved (order : list string)  (* 200 *)
  | SaveFailed                        (* 500 *).

(** [set_order()], on the decoded request body. *)
Definition set_order `{World} (admin : bool) (body : json) (s : server)
    : set_order_response * server :=
  if negb admin then (SetForbidden, s)
  else
    let data := if truthy body then body else JObj [] in
    match data with
    | JObj o =>
        match default (JList []) (get "order" o) with
        | JList new_order =>
            let cleaned := clean_order new_order (keys (layers s)) in
            let '(ok, s1) := save_order (JStr <$> cleaned) s in
            if ok then (OrderSaved cleaned, s1) else (SaveFailed, s1)
        | _ => (SetNotAList, s)
        end
    | _ => (SetRaised, s)
    end.

(** ** Sessions *)

Definition ADMIN_USER : string := "admin".
Definition ADMIN_PASS : string := "1234".

(** [data[key]] on a decoded request body; [None] when it raises: [KeyError]
    on an object without the key, [TypeError] on anything that is not an
    object. *)
Definition subscript (data : json) (key : string) : option json :=
  match data with
  | JObj o => get key o
  | _ => None
  end.

Inductive login_response : Type :=
  | LoggedIn             (* 200 *)
  | InvalidCredentials   (* 401 *)
  | LoginRaised          (* the handler raises *).

(** [login_api()], on the decoded request body and the session's admin flag.
    The password is looked up only when the user name matches. *)
Definition login_api (data : json) (session_admin : bool)
    : login_response * bool :=
  match subscript data "username" with
  | None => (LoginRaised, session_admin)
  | Some username =>
      if json_eq_str username ADMIN_USER
      then
        match subscript data "password" with
        | None => (LoginRaised, session_admin)
        | Some password =>
            if json_eq_str password ADMIN_PASS
            then (LoggedIn, true)
            else (InvalidCredentials, session_admin)
        end
      else (InvalidCredentials, session_admin)
  end.

(** [logout()]: [session.pop("admin", None)]. *)
Definition logout (session_admin : bool) : bool := false.

(** ** Start-up *)

Definition GITHUB_SHAPEFILES : list (string * string) :=
  [("Taluka", "https://github.com/himgis/webgis/raw/master/uploads/Taluka.zip");
   ("P_Location",
    "https://github.com/himgis/webgis/raw/master/uploads/P_Location.zip")].

(** Lines 25-31: the order file is created with the default order when it
    does not exist; a failure to write it is only printed. *)
Definition ensure_order_file `{World} (s : server) : server :=
  match order_file s with
  | Missing => (save_order DEFAULT_LAYER_ORDER s).2
  | _ => s
  end.

(** The body of the loop of [load_github_shapefiles].  [fetch url] is the
    content [requests.get(url)] brings, [None] when the try block raises. *)
Definition load_github_one `{World} (fetch : string → option string)
    (s : server) (entry : string * string) : server :=
  let '(layer_name, url) := entry in
  let path := path_join UPLOAD_FOLDER (layer_name +:+ ".zip") in
  match folder s !! path with
  | Some _ => (load_zip_into_layers path s).2
  | None =>
      match fetch url with
      | Some bytes =>
          let s1 := with_folder s (<[path := bytes]> (folder s)) in
          (load_zip_into_layers path s1).2
      | None => s
      end
  end.

(** [load_github_shapefiles()] *)
Definition load_github_shapefiles `{World} (fetch : string → option string)
    (s : server) : server :=
  foldl (load_github_one fetch) s GITHUB_SHAPEFILES.

(** What importing the module does to the disk it finds: lines 25-31, the
    empty dictionary of line 40, and lines 313-319. *)
Definition startup `{World} (fetch : string → option string) (s : server)
    : server :=
  let s0 := with_layers (ensure_order_file s) [] in
  let s1 := load_github_shapefiles fetch s0 in
  let order_now := extend_order (load_saved_order s1) (keys (layers s1)) in
  (save_order order_now s1).2.

(** ** Vocabulary of the statements *)

(** [m] is the least (greatest) value of [l]: it occurs in [l] and is below
    (above) every value of [l]. *)
Definition least_of (m : spec_float) (l : list spec_float) : Prop :=
  m ∈ l ∧ ∀ y, y ∈ l → SFleb m y = true.
Definition greatest_of (m : spec_float) (l : list spec_float) : Prop :=
  m ∈ l ∧ ∀ y, y ∈ l → SFleb y m = true.

Definition is_nan (f : spec_float) : bool :=
  match f with
  | S754_nan => true
  | _ => false
  end.

(** No coordinate of the box is NaN. *)
Definition bbox_numeric (b : bbox) : Prop :=
  is_nan (minx b) = false ∧ is_nan (miny b) = false ∧
  is_nan (maxx b) = false ∧ is_nan (maxy b) = false.

(** The rectangle [r] is the union of the boxes [bs], as
    [[[min_lat, min_lon], [max_lat, max_lon]]] with [x] the longitude and
    [y] the latitude. *)
Definition union_rect (r : rect) (bs : list bbox) : Prop :=
  least_of r.1.1 (miny <$> bs) ∧ least_of r.1.2 (minx <$> bs) ∧
  greatest_of r.2.1 (maxy <$> bs) ∧ greatest_of r.2.2 (maxx <$> bs).

(** The outcome of one uploaded file, from that file alone: its name ends
    in [.zip] and its content is ingested. *)
Definition ingests `{World} (file : upload) : bool :=
  is_zip_name (filename file) && bool_decide (is_Some (read_archive (content file))).


(** The names of a loaded order that are registered, in their original
    relative order, each one kept where it first occurs. *)
Definition kept_names (loaded_order : list json) (present : list string)
    : list string :=
  dedup_first (filter (λ s, s ∈ present) (json_strs loaded_order)).

(** The file name has no path separator in it. *)
Definition plain_name (name : string) : Prop :=
  Forall (λ c, c ≠ sep) (list_ascii_of_string name).

(** Every file of the batch that [file.save] is called on can be saved. *)
Definition savable_batch `{World} (s : server) (files : list upload) : Prop :=
  Forall (λ file, is_zip_name (filename file) = true →
                  can_save s (path_join UPLOAD_FOLDER (filename file)) = true)
         files.

(** The four coordinates of the box are NaN: what [total_bounds] gives for
    a collection whose geometries are all null. *)
Definition all_nan (b : bbox) : Prop :=
  is_nan (minx b) = true ∧ is_nan (miny b) = true ∧
  is_nan (maxx b) = true ∧ is_nan (maxy b) = true.

Global Instance all_nan_dec (b : bbox) : Decision (all_nan b).
Proof. unfold all_nan. apply _. Defined.

(** [file.save] raises for this file: its name ends in [.zip] and the
    archive cannot be created at its path. *)
Definition unsavable `{World} (s : server) (file : upload) : Prop :=
  is_zip_name (filename file) = true
  ∧ can_save s (path_join UPLOAD_FOLDER (filename file)) = false.

(** The layer name [load_zip_into_layers] derives from an archive path. *)
Definition layer_name_of (path : string) : string :=
  splitext_root (basename path).

(** ** A small world for concrete runs

    A feature collection is represented by what [total_bounds] makes of it;
    an archive with no bytes has no shapefile. *)
Module Demo.

Definition f1 : spec_float := S754_finite false 4503599627370496 (-52).
Definition f2 : spec_float := S754_finite false 4503599627370496 (-51).
Definition f3 : spec_float := S754_finite false 6755399441055744 (-51).
Definition f4 : spec_float := S754_finite false 4503599627370496 (-50).

Definition box_a : bbox := BBox f1 f2 f3 f4.
Definition box_b : bbox := BBox f2 f1 f4 f3.
Definition box_nan : bbox := BBox S754_nan S754_nan S754_nan S754_nan.

Definition world : World :=
  {| geo := option bbox;
     read_archive bytes :=
       if bool_decide (bytes = "") then None
       else if bool_decide (bytes = "null geometry") then Some (Some box_nan)
       else if bool_decide (bytes = "a") then Some (Some box_a)
       else if bool_decide (bytes = "b") then Some (Some box_b)
       else Some None;
     total_bounds g := g;
     randint i := Z.of_nat i |}.

Definition lyr (g : option bbox) (path : string) : @layer world :=
  {| geojson := (g : @geo world); color := "#000000";
     opacity := opacity_default; zip_path := path |}.

(** A server with the given registry and order file. *)
Definition server_with (d : pydict (@layer world)) (f : order_file_state)
    (writable : bool) : @server world :=
  {| layers := d; order_file := f; order_writable := writable;
     fails_after_open := false; folder := ∅; dirs := ∅; draws := 0 |}.

Definition fresh : @server world :=
  server_with [] (Document (JList DEFAULT_LAYER_ORDER)) true.

Definition one_layer (writable : bool) : @server world :=
  server_with [("A", lyr (Some box_a) "uploads/A.zip")]
    (Document (JList [JStr "Taluka"; JStr "A"])) writable.

Definition two_layers : @server world :=
  server_with [("b", lyr (Some box_b) "uploads/b.zip");
               ("a", lyr (Some box_a) "uploads/a.zip")]
    (Document (JList [JStr "gone"; JStr "b"])) true.

Definition null_first : @server world :=
  server_with [("a", lyr (Some box_nan) "uploads/a.zip");
               ("b", lyr (Some box_b) "uploads/b.zip")]
    Missing true.

Definition batch : list (string * upload) :=
  [("files", Upload "b.zip" "b"); ("files", Upload "notes.txt" "b");
   ("files", Upload "a.ZIP" "a"); ("files", Upload "empty.zip" "")].
End Demo.

(** A disk at first start: no order file, no archive, and a network that
    serves both sources. *)
Module DemoStart.

Definition fetch (url : string) : option string := Some "a".

Definition offline (url : string) : option string := None.

Definition first_boot : @server Demo.world :=
  Demo.server_with [] Missing true.

Definition one_file : list (string * upload) := [("files", Upload "A.zip" "a")].

(** Both bootstrap archives are already in the upload folder. *)
Definition cached : @server Demo.world :=
  {| layers := []; order_file := Missing; order_writable := true;
     fails_after_open := false;
     folder := <["uploads/Taluka.zip" := "a"]> {["uploads/P_Location.zip" := "b"]};
     dirs := ∅; draws := 0 |}.

(** The first file names a directory that does not exist. *)
Definition blocked_batch : list (string * upload) :=
  [("files", Upload "sub/x.zip" "a"); ("files", Upload "b.zip" "b")].

(** The same two files, the other way round. *)
Definition blocked_last : list (string * upload) :=
  [("files", Upload "b.zip" "b"); ("files", Upload "sub/x.zip" "a")].

Definition only_b : list (string * upload) := [("files", Upload "b.zip" "b")].

(** The layer without geometry is listed after the other one. *)
Definition null_last : @server Demo.world :=
  Demo.server_with [("a", Demo.lyr (Some Demo.box_b) "uploads/a.zip");
                    ("b", Demo.lyr (Some Demo.box_nan) "uploads/b.zip")]
    Missing true.

(** The order file cannot be written, and the write fails after the file
    was opened. *)
Definition torn_write : @server Demo.world :=
  {| layers := [("A", Demo.lyr (Some Demo.box_a) "uploads/A.zip")];
     order_file := Document (JList [JStr "Taluka"; JStr "A"]);
     order_writable := false; fails_after_open := true;
     folder := ∅; dirs := ∅; draws := 0 |}.
End DemoStart.

(** * Properties *)

(** ** Membership tests *)

Lemma json_in_strs_str (s : string) (names : list string) :
  json_in_strs (JStr s) names = bool_decide (s ∈ names).
Proof.
  unfold json_in_strs. induction names as [|t names IH]; simpl; [done|].
  rewrite IH. apply eq_true_iff_eq.
  rewrite orb_true_iff, !bool_decide_eq_true, elem_of_cons. tauto.
Qed.

Lemma json_in_strs_other (n : json) (names : list string) :
  as_str n = None → json_in_strs n names = false.
Proof.
  intros Hn. unfold json_in_strs.
  induction names as [|t names IH]; simpl; [done|].
  rewrite IH. by destruct n.
Qed.

Lemma str_in_json_spec (s : string) (order : list json) :
  str_in_json s order = true ↔ JStr s ∈ order.
Proof.
  unfold str_in_json. induction order as [|n order IH]; simpl.
  - rewrite elem_of_nil. intuition congruence.
  - rewrite orb_true_iff, IH, elem_of_cons.
    destruct n; simpl; rewrite ?bool_decide_eq_true; intuition congruence.
Qed.

Lemma str_in_json_snoc (k x : string) (order : list json) :
  str_in_json k (order ++ [JStr x]) = str_in_json k order || bool_decide (k = x).
Proof.
  unfold str_in_json. rewrite existsb_app. simpl. rewrite orb_false_r.
  f_equal. apply bool_decide_ext. intuition congruence.
Qed.

Lemma json_strs_fmap (l : list string) : json_strs (JStr <$> l) = l.
Proof. unfold json_strs. induction l; simpl; by f_equal. Qed.

(** ** De-duplication *)

Lemma elem_of_dedup_first (l : list string) (x : string) :
  x ∈ dedup_first l ↔ x ∈ l.
Proof.
  induction l as [|y l IH]; simpl; [done|].
  rewrite !elem_of_cons, list_elem_of_filter, IH.
  destruct (decide (x = y)); tauto.
Qed.

Lemma NoDup_dedup_first (l : list string) : NoDup (dedup_first l).
Proof.
  induction l as [|y l IH]; simpl; [constructor|].
  apply NoDup_cons. split.
  - rewrite list_elem_of_filter. tauto.
  - by apply NoDup_filter.
Qed.

Lemma filter_all {A} (P : A → Prop) `{!∀ x, Decision (P x)} (l : list A) :
  (∀ x, x ∈ l → P x) → filter P l = l.
Proof.
  induction l as [|y l IH]; intros Hl; [done|].
  rewrite filter_cons_True by (apply Hl; left).
  f_equal. apply IH. intros x Hx. apply Hl. by right.
Qed.

Lemma filter_none {A} (P : A → Prop) `{!∀ x, Decision (P x)} (l : list A) :
  (∀ x, x ∈ l → ¬ P x) → filter P l = [].
Proof.
  induction l as [|y l IH]; intros Hl; [done|].
  rewrite filter_cons_False by (apply Hl; left).
  apply IH. intros x Hx. apply Hl. by right.
Qed.

Lemma dedup_first_NoDup (l : list string) : NoDup l → dedup_first l = l.
Proof.
  induction 1 as [|y l Hy Hl IH]; simpl; [done|].
  rewrite IH. f_equal. apply filter_all. intros x Hx ->. done.
Qed.

Lemma dedup_first_filter (P : string → Prop) `{!∀ x, Decision (P x)}
    (l : list string) :
  dedup_first (filter P l) = filter P (dedup_first l).
Proof.
  induction l as [|y l IH]; simpl; [done|].
  rewrite !filter_cons. destruct (decide (P y)) as [Hy|Hy]; simpl.
  - rewrite IH, !list_filter_filter. f_equal.
    apply list_filter_iff. tauto.
  - rewrite IH, list_filter_filter. apply list_filter_iff.
    intros x. split; [|tauto]. intros Hx. split; [done|]. by intros ->.
Qed.

(** ** Loops that append what is not there yet *)

Section append_new.
Context {A : Type} (inj : string → A) (mem : string → list A → bool).
Hypothesis mem_snoc : ∀ k acc x,
  mem k (acc ++ [inj x]) = mem k acc || bool_decide (k = x).

Lemma foldl_append_new (l : list string) (acc : list A) :
  foldl (λ acc n, if mem n acc then acc else acc ++ [inj n]) acc l
  = acc ++ (inj <$> dedup_first (filter (λ k, mem k acc = false) l)).
Proof.
  revert acc. induction l as [|x l IH]; intros acc; simpl.
  - by rewrite app_nil_r.
  - rewrite filter_cons. destruct (mem x acc) eqn:Hx.
    + rewrite decide_False by done. apply IH.
    + rewrite decide_True by done. rewrite IH. simpl.
      rewrite <-app_assoc. simpl. do 3 f_equal.
      rewrite <-dedup_first_filter, list_filter_filter. f_equal.
      apply list_filter_iff. intros k. rewrite mem_snoc.
      rewrite orb_false_iff, bool_decide_eq_false. tauto.
Qed.
End append_new.

Lemma foldl_append_if_new (l acc : list string) :
  foldl append_if_new acc l = acc ++ dedup_first (filter (λ k, k ∉ acc) l).
Proof.
  unfold append_if_new.
  rewrite (foldl_append_new id (λ k acc, bool_decide (k ∈ acc))).
  - rewrite list_fmap_id. do 2 f_equal. apply list_filter_iff.
    intros k. by rewrite bool_decide_eq_false.
  - intros k a x. apply eq_true_iff_eq.
    rewrite orb_true_iff, !bool_decide_eq_true, elem_of_app, list_elem_of_singleton.
    done.
Qed.

Lemma elem_of_json_strs (s : string) (order : list json) :
  s ∈ json_strs order ↔ JStr s ∈ order.
Proof.
  unfold json_strs. rewrite list_elem_of_omap. split.
  - intros (n & Hn & Hs). by destruct n; simplify_eq/=.
  - intros Hs. by exists (JStr s).
Qed.

Lemma extend_order_eq (order : list json) (names : list string) :
  extend_order order names
  = order ++ (JStr <$> dedup_first (filter (λ k, k ∉ json_strs order) names)).
Proof.
  unfold extend_order, append_missing.
  rewrite (foldl_append_new JStr str_in_json)
    by (intros; apply str_in_json_snoc).
  do 3 f_equal. apply list_filter_iff. intros k.
  rewrite elem_of_json_strs, <-str_in_json_spec.
  by destruct (str_in_json k order).
Qed.

Lemma foldl_keep_known (present : list string) (saved : list json)
    (acc : list string) :
  foldl (keep_known present) acc saved
  = foldl append_if_new acc (filter (λ s, s ∈ present) (json_strs saved)).
Proof.
  revert acc. induction saved as [|n saved IH]; intros acc; [done|].
  simpl. unfold json_strs in *. simpl.
  unfold keep_known at 2. destruct (as_str n) as [s|] eqn:Hn; [|apply IH].
  destruct n; simplify_eq/=. rewrite json_in_strs_str, filter_cons.
  case_bool_decide as Hs; simpl.
  - rewrite decide_True by done. simpl. rewrite IH. f_equal.
    unfold append_if_new. by case_bool_decide.
  - rewrite decide_False by done. apply IH.
Qed.

Lemma clean_order_filter (new_order : list json) (present : list string) :
  omap (λ n, match as_str n with
             | Some s => if json_in_strs n present then Some s else None
             | None => None
             end) new_order
  = filter (λ s, s ∈ present) (json_strs new_order).
Proof.
  unfold json_strs. induction new_order as [|n l IH]; [done|]. simpl.
  destruct n; simpl; try apply IH.
  rewrite json_in_strs_str, filter_cons. case_bool_decide.
  - rewrite decide_True by done. by f_equal.
  - by rewrite decide_False by done.
Qed.

(** ** Sorting *)

Lemma StronglySorted_filter {A} (R : relation A) (P : A → Prop)
    `{!∀ x, Decision (P x)} (l : list A) :
  StronglySorted R l → StronglySorted R (filter P l).
Proof.
  induction 1 as [|x l Hl IH Hx]; [constructor|].
  rewrite filter_cons. case_decide; [|done].
  constructor; [done|].
  apply Forall_forall. intros y [_ Hy]%list_elem_of_filter.
  by eapply Forall_forall in Hx.
Qed.

Lemma StronglySorted_dedup_first (l : list string) :
  StronglySorted String.le l → StronglySorted String.le (dedup_first l).
Proof.
  induction 1 as [|x l Hl IH Hx]; simpl; [constructor|].
  constructor; [apply StronglySorted_filter; exact IH|].
  apply Forall_forall. intros y [_ Hy]%list_elem_of_filter.
  rewrite elem_of_dedup_first in Hy.
  rewrite Forall_forall in Hx. by apply Hx.
Qed.

Lemma sorted_StronglySorted (l : list string) : StronglySorted String.le (sorted l).
Proof. apply StronglySorted_merge_sort; apply _. Qed.

Lemma elem_of_sorted (l : list string) (x : string) : x ∈ sorted l ↔ x ∈ l.
Proof. unfold sorted. by rewrite merge_sort_Permutation. Qed.

(** ** The listing order in closed form *)

Lemma reconcile_eq (saved : list json) (present : list string) :
  reconcile saved present
  = kept_names saved present
    ++ dedup_first (filter (λ x, x ∉ kept_names saved present) (sorted present)).
Proof.
  unfold reconcile. rewrite foldl_keep_known, !foldl_append_if_new. simpl.
  rewrite (filter_all (λ k, k ∉ [])) by (intros ? _; apply not_elem_of_nil).
  done.
Qed.

Lemma elem_of_kept_names saved present x :
  x ∈ kept_names saved present ↔ x ∈ present ∧ JStr x ∈ saved.
Proof.
  unfold kept_names.
  by rewrite elem_of_dedup_first, list_elem_of_filter, elem_of_json_strs.
Qed.

Lemma elem_of_reconcile saved present x :
  x ∈ reconcile saved present ↔ x ∈ present.
Proof.
  rewrite reconcile_eq, elem_of_app, elem_of_dedup_first, list_elem_of_filter,
    elem_of_sorted, elem_of_kept_names.
  destruct (decide (x ∈ kept_names saved present)) as [Hx|Hx].
  - apply elem_of_kept_names in Hx. tauto.
  - rewrite elem_of_kept_names in Hx. tauto.
Qed.

Lemma NoDup_reconcile saved present : NoDup (reconcile saved present).
Proof.
  rewrite reconcile_eq. apply NoDup_app. split_and!.
  - apply NoDup_dedup_first.
  - intros x Hx. rewrite elem_of_dedup_first, list_elem_of_filter. tauto.
  - apply NoDup_dedup_first.
Qed.

(** C4.  Reconciling is idempotent: applied to its own output, with the same
    registered names, the listing order comes back unchanged. *)
Theorem reconcile_idempotent (order : list json) (present : list string) :
  reconcile (JStr <$> reconcile order present) present = reconcile order present.
Proof.
  set (r := reconcile order present).
  rewrite reconcile_eq. unfold kept_names. rewrite json_strs_fmap.
  assert (filter (λ s, s ∈ present) r = r) as ->.
  { apply filter_all. intros x Hx. by apply elem_of_reconcile in Hx. }
  rewrite (dedup_first_NoDup r) by apply NoDup_reconcile.
  rewrite filter_none; [by rewrite app_nil_r|].
  intros x Hx Hn. apply Hn. apply elem_of_reconcile.
  by rewrite elem_of_sorted in Hx.
Qed.

(** C1, as amended.  For a registry (distinct names) the order computed by
    [set_order] is the requested list filtered to the strings that are
    registered, followed by the registered names missing from it in registry
    iteration order.  It holds no unregistered name and holds every
    registered name; it is free of repetitions whenever the filtered request
    is.  (A name requested twice stays twice.) *)
Theorem clean_order_policy (new_order : list json) (present : list string) :
  NoDup present →
  let kept := filter (λ s, s ∈ present) (json_strs new_order) in
  clean_order new_order present = kept ++ filter (λ s, s ∉ kept) present
  ∧ (∀ x, x ∈ clean_order new_order present → x ∈ present)
  ∧ (∀ x, x ∈ present → x ∈ clean_order new_order present)
  ∧ (NoDup kept → NoDup (clean_order new_order present)).
Proof.
  intros Hnd kept. unfold clean_order.
  rewrite clean_order_filter, foldl_append_if_new. fold kept.
  rewrite dedup_first_NoDup by by apply NoDup_filter.
  split_and!; [done|..].
  - intros x. unfold kept.
    rewrite elem_of_app, !list_elem_of_filter. tauto.
  - intros x Hx. rewrite elem_of_app, list_elem_of_filter.
    destruct (decide (x ∈ kept)); tauto.
  - intros Hk. apply NoDup_app. split_and!; [done| |by apply NoDup_filter].
    intros x Hx. rewrite list_elem_of_filter. tauto.
Qed.

(** ** Dictionaries *)

Section dict_facts.
Context {V : Type}.
Implicit Types (d acc : pydict V) (k : string) (v : V).

Lemma get_None k d : get k d = None ↔ k ∉ keys d.
Proof.
  unfold keys. induction d as [|[k' v'] d IH]; simpl.
  - split; [intros _; apply not_elem_of_nil|done].
  - rewrite not_elem_of_cons. case_decide; intuition congruence.
Qed.

Lemma get_is_Some k d : is_Some (get k d) ↔ k ∈ keys d.
Proof.
  rewrite <-not_eq_None_Some, get_None.
  destruct (decide (k ∈ keys d)); tauto.
Qed.

Lemma keys_set k v d :
  keys (set k v d) = if decide (k ∈ keys d) then keys d else keys d ++ [k].
Proof.
  unfold keys. induction d as [|[k' v'] d IH].
  - cbn [set fmap list_fmap fst]. case_decide as Hk; [|done].
    by apply elem_of_nil in Hk.
  - cbn [set]. destruct (decide (k = k')) as [->|Hk].
    + rewrite !fmap_cons. cbn [fst]. by rewrite decide_True by left.
    + rewrite !fmap_cons, IH. cbn [fst]. destruct (decide (k ∈ d.*1)).
      * by rewrite decide_True by by right.
      * rewrite decide_False; [done|]. rewrite elem_of_cons. tauto.
Qed.

Lemma get_set_eq k v d : get k (set k v d) = Some v.
Proof.
  induction d as [|[k' v'] d IH]; simpl.
  - by rewrite decide_True.
  - destruct (decide (k = k')) as [->|Hk]; simpl.
    + by rewrite decide_True.
    + by rewrite decide_False.
Qed.

Lemma get_set_ne k k' v d : k' ≠ k → get k' (set k v d) = get k' d.
Proof.
  intros Hne. induction d as [|[k0 v0] d IH]; simpl.
  - by rewrite decide_False.
  - destruct (decide (k = k0)) as [->|Hk]; simpl.
    + by rewrite !decide_False.
    + by rewrite IH.
Qed.

Lemma dict_wf_set k v d : dict_wf d → dict_wf (set k v d).
Proof.
  unfold dict_wf. intros Hd. rewrite keys_set. case_decide; [done|].
  apply NoDup_app. split_and!; [done| |apply NoDup_singleton].
  intros x Hx ->%list_elem_of_singleton. done.
Qed.

Lemma not_elem_of_keys_pop k d : k ∉ keys (pop k d).
Proof.
  unfold keys, pop. rewrite list_elem_of_fmap.
  intros ([k' v'] & -> & [Hk _]%list_elem_of_filter). done.
Qed.

Lemma dict_wf_pop k d : dict_wf d → dict_wf (pop k d).
Proof.
  unfold dict_wf, keys, pop. induction d as [|[k' v'] d IH]; [done|].
  rewrite fmap_cons, NoDup_cons. intros [Hk Hd].
  rewrite (filter_cons (λ kv : string * V, kv.1 ≠ k)).
  case_decide; [|by apply IH]. rewrite fmap_cons, NoDup_cons.
  split; [|by apply IH]. rewrite list_elem_of_fmap in Hk |- *.
  intros (kv & ? & [_ ?]%list_elem_of_filter). apply Hk. by exists kv.
Qed.

(** The comprehension over distinct registered names never raises; it
    lists the names in the order given, each with its registered value. *)
Lemma layers_by_name_spec d ordered acc :
  NoDup ordered →
  (∀ n, n ∈ ordered → n ∈ keys d) →
  (∀ n, n ∈ ordered → n ∉ keys acc) →
  ∃ out, layers_by_name d ordered acc = Some out
    ∧ keys out = keys acc ++ ordered
    ∧ (∀ n, n ∈ ordered → get n out = get n d)
    ∧ (∀ n, n ∉ ordered → get n out = get n acc).
Proof.
  revert acc. induction ordered as [|x ordered IH]; intros acc Hnd Hd Hacc.
  - exists acc. rewrite app_nil_r. split_and!; [done..| |done].
    by intros n ?%elem_of_nil.
  - apply NoDup_cons in Hnd as [Hx Hnd]. simpl.
    destruct (get x d) as [v|] eqn:Hv.
    2:{ apply get_None in Hv. destruct Hv. apply Hd. left. }
    destruct (IH (set x v acc)) as (out & Hout & Hkeys & Hin & Hnot).
    + done.
    + intros n Hn. apply Hd. by right.
    + intros n Hn. rewrite keys_set. rewrite decide_False by (apply Hacc; left).
      rewrite not_elem_of_app, list_elem_of_singleton. split.
      * apply Hacc. by right.
      * by intros ->.
    + exists out. split; [done|]. split_and!.
      * rewrite Hkeys, keys_set.
        rewrite decide_False by (apply Hacc; left). by rewrite <-app_assoc.
      * intros n [->|Hn]%elem_of_cons; [|by apply Hin].
        by rewrite Hnot, get_set_eq.
      * intros n [Hne Hn]%not_elem_of_cons. by rewrite Hnot, get_set_ne.
Qed.
End dict_facts.

(** ** The listing never raises *)

Section listing_total.
Context `{World}.

Lemma get_layers_listing (admin : bool) (s : server) :
  ∃ resp, get_layers admin s = Some resp
    ∧ is_admin resp = admin
    ∧ order resp = reconcile (load_saved_order s) (keys (layers s))
    ∧ keys (listed_layers resp) = order resp
    ∧ (∀ n, n ∈ order resp → get n (listed_layers resp) = get n (layers s))
    ∧ bounds resp = bounds_of (collect_bounds (listed_layers resp)).
Proof.
  unfold get_layers.
  destruct (layers_by_name_spec (layers s)
    (reconcile (load_saved_order s) (keys (layers s))) [])
    as (out & -> & Hkeys & Hin & _).
  - apply NoDup_reconcile.
  - intros n. by rewrite elem_of_reconcile.
  - intros n _. apply not_elem_of_nil.
  - eexists. split; [done|]. simpl. split_and!; [done..|].
    by destruct out.
Qed.
End listing_total.

(** ** Comparison of floats *)

Ltac float_cases :=
  repeat match goal with
  | f : spec_float |- _ => destruct f as [[]|[]| |[] ? ?]
  end; simpl in *; try done.

Ltac compare_cases :=
  repeat match goal with
  | |- context [Pos.compare_cont Eq ?a ?b] =>
      change (Pos.compare_cont Eq a b) with (Pos.compare a b)
  | |- context [(?a ?= ?b)%Z] => destruct (Z.compare_spec a b)
  | H : context [(?a ?= ?b)%Z] |- _ => destruct (Z.compare_spec a b)
  | |- context [(?a ?= ?b)%positive] => destruct (Pos.compare_spec a b)
  | H : context [(?a ?= ?b)%positive] |- _ => destruct (Pos.compare_spec a b)
  end; simpl in *; try done; try lia.

Lemma SFltb_irrefl (a : spec_float) : SFltb a a = false.
Proof. unfold SFltb, SFcompare. float_cases; compare_cases. Qed.

Lemma SFltb_trans (a b c : spec_float) :
  SFltb a b = true → SFltb b c = true → SFltb a c = true.
Proof. unfold SFltb, SFcompare. float_cases; compare_cases. Qed.

Lemma SFleb_total (a b : spec_float) :
  is_nan a = false → is_nan b = false → SFltb b a = false → SFleb a b = true.
Proof. unfold SFltb, SFleb, SFcompare. float_cases; compare_cases. Qed.

(** ** Minimum and maximum as Python computes them *)

Lemma py_min_inv (rest seen : list spec_float) (best : spec_float) :
  best ∈ seen → (∀ y, y ∈ seen → SFltb y best = false) →
  py_min best rest ∈ seen ++ rest
  ∧ ∀ y, y ∈ seen ++ rest → SFltb y (py_min best rest) = false.
Proof.
  unfold py_min. revert seen best.
  induction rest as [|x rest IH]; intros seen best Hin Hlow; simpl.
  - by rewrite app_nil_r.
  - rewrite (assoc_L _ seen [x] rest : seen ++ x :: rest = (seen ++ [x]) ++ rest).
    apply IH.
    + rewrite elem_of_app, list_elem_of_singleton.
      destruct (SFltb x best); auto.
    + intros y [Hy| ->%list_elem_of_singleton]%elem_of_app.
      * destruct (SFltb x best) eqn:Hx; [|by apply Hlow].
        destruct (SFltb y x) eqn:Hyx; [|done].
        by rewrite <-(Hlow y Hy), (SFltb_trans y x best).
      * destruct (SFltb x best) eqn:Hx; [apply SFltb_irrefl|done].
Qed.

Lemma py_max_inv (rest seen : list spec_float) (best : spec_float) :
  best ∈ seen → (∀ y, y ∈ seen → SFltb best y = false) →
  py_max best rest ∈ seen ++ rest
  ∧ ∀ y, y ∈ seen ++ rest → SFltb (py_max best rest) y = false.
Proof.
  unfold py_max. revert seen best.
  induction rest as [|x rest IH]; intros seen best Hin Hlow; simpl.
  - by rewrite app_nil_r.
  - rewrite (assoc_L _ seen [x] rest : seen ++ x :: rest = (seen ++ [x]) ++ rest).
    apply IH.
    + rewrite elem_of_app, list_elem_of_singleton.
      destruct (SFltb best x); auto.
    + intros y [Hy| ->%list_elem_of_singleton]%elem_of_app.
      * destruct (SFltb best x) eqn:Hx; [|by apply Hlow].
        destruct (SFltb x y) eqn:Hxy; [|done].
        by rewrite <-(Hlow y Hy), (SFltb_trans best x y).
      * destruct (SFltb best x) eqn:Hx; [apply SFltb_irrefl|done].
Qed.

Lemma py_min_least (first : spec_float) (rest : list spec_float) :
  Forall (λ f, is_nan f = false) (first :: rest) →
  least_of (py_min first rest) (first :: rest).
Proof.
  intros Hnum. rewrite Forall_forall in Hnum.
  destruct (py_min_inv rest [first] first) as [Hin Hlow].
  { left. } { intros y ->%list_elem_of_singleton. apply SFltb_irrefl. }
  split; [done|]. intros y Hy. apply SFleb_total; auto.
Qed.

Lemma py_max_greatest (first : spec_float) (rest : list spec_float) :
  Forall (λ f, is_nan f = false) (first :: rest) →
  greatest_of (py_max first rest) (first :: rest).
Proof.
  intros Hnum. rewrite Forall_forall in Hnum.
  destruct (py_max_inv rest [first] first) as [Hin Hlow].
  { left. } { intros y ->%list_elem_of_singleton. apply SFltb_irrefl. }
  split; [done|]. intros y Hy. apply SFleb_total; auto.
Qed.

Lemma bounds_of_union (bs : list bbox) :
  bs ≠ [] → Forall bbox_numeric bs →
  ∃ r, bounds_of bs = Some r ∧ union_rect r bs.
Proof.
  destruct bs as [|b bs]; [done|]. intros _ Hnum.
  eexists. split; [done|].
  assert (∀ proj : bbox → spec_float,
    (∀ b', bbox_numeric b' → is_nan (proj b') = false) →
    Forall (λ f, is_nan f = false) (proj <$> b :: bs)) as Hproj.
  { intros proj Hp. apply Forall_fmap. eapply Forall_impl; [exact Hnum|].
    intros b' Hb'. by apply Hp. }
  unfold union_rect. simpl.
  split_and!; (apply py_min_least || apply py_max_greatest);
    apply Hproj; by intros b' (? & ? & ? & ?).
Qed.

Lemma length_filter_split {A} (f : A → bool) (l : list A) :
  length (filter (λ x, f x = true) l) + length (filter (λ x, f x = false) l)
  = length l.
Proof.
  induction l as [|x l IH]; [done|].
  rewrite !filter_cons. destruct (f x) eqn:Hx.
  - rewrite decide_True, decide_False by done. simpl. lia.
  - rewrite decide_False, decide_True by done. simpl. lia.
Qed.

Section handlers.
Context `{World}.
Implicit Types (s : server) (file : upload).

(** ** Order store *)

Lemma save_order_writable order_list s :
  order_writable s = true →
  save_order order_list s = (true, with_order_file s (Document (JList order_list))).
Proof. unfold save_order. by intros ->. Qed.

(** ** Upload *)

Lemma can_save_dirs s s' (path : string) :
  dirs s' = dirs s → can_save s' path = can_save s path.
Proof. unfold can_save. by intros ->. Qed.

Lemma savable_batch_dirs s s' (files : list upload) :
  dirs s' = dirs s → savable_batch s files → savable_batch s' files.
Proof.
  intros Hd Hs. unfold savable_batch in *. eapply Forall_impl; [exact Hs|].
  intros file Hfile Hzip. cbn beta in *.
  rewrite (can_save_dirs s s') by done. by apply Hfile.
Qed.

Lemma upload_one_spec uploaded failed s file :
  (is_zip_name (filename file) = true →
   can_save s (path_join UPLOAD_FOLDER (filename file)) = true) →
  ∃ s', upload_one (Some (uploaded, failed), s) file
        = (Some (if ingests file then uploaded ++ [splitext_root (filename file)]
                 else uploaded,
                 if ingests file then failed else failed ++ [filename file]), s')
    ∧ order_file s' = order_file s
    ∧ order_writable s' = order_writable s
    ∧ dirs s' = dirs s
    ∧ (dict_wf (layers s) → dict_wf (layers s')).
Proof.
  intros Hsave. unfold upload_one, ingests.
  destruct (is_zip_name (filename file)); simpl.
  2:{ by exists s. }
  rewrite Hsave by done.
  unfold load_zip_into_layers. simpl. rewrite lookup_insert_eq.
  destruct (read_archive (content file)) as [g|] eqn:Hg.
  - rewrite bool_decide_eq_true_2 by done. eexists. split; [done|]. simpl.
    split_and!; [done..|]. apply dict_wf_set.
  - rewrite bool_decide_eq_false_2 by (by intros [? ?]).
    eexists. split; [done|]. done.
Qed.

Lemma upload_loop_spec files uploaded failed s :
  savable_batch s files →
  ∃ s', foldl upload_one (Some (uploaded, failed), s) files
        = (Some (uploaded ++ ((splitext_root ∘ filename)
                                <$> filter (λ file, ingests file = true) files),
                 failed ++ (filename
                              <$> filter (λ file, ingests file = false) files)),
           s')
    ∧ order_file s' = order_file s
    ∧ order_writable s' = order_writable s
    ∧ (dict_wf (layers s) → dict_wf (layers s')).
Proof.
  revert uploaded failed s.
  induction files as [|file files IH]; intros uploaded failed s Hsav;
    cbn [foldl].
  - exists s. by rewrite !filter_nil, !fmap_nil, !app_nil_r.
  - apply Forall_cons in Hsav as [Hfile Hsav].
    destruct (upload_one_spec uploaded failed s file Hfile)
      as (s1 & -> & Hf1 & Hw1 & Hdirs & Hd1).
    destruct (IH (if ingests file then uploaded ++ [splitext_root (filename file)]
                  else uploaded)
                 (if ingests file then failed else failed ++ [filename file]) s1)
      as (s2 & -> & Hf2 & Hw2 & Hd2).
    { by apply (savable_batch_dirs s). }
    exists s2. rewrite !filter_cons. split; [|naive_solver congruence].
    destruct (ingests file) eqn:Hi.
    + rewrite decide_True, decide_False by done.
      by rewrite fmap_cons, <-app_assoc.
    + rewrite decide_False, decide_True by done.
      by rewrite fmap_cons, <-app_assoc.
Qed.

Lemma upload_shapefiles_spec form s :
  getlist "files" form ≠ [] →
  savable_batch s (getlist "files" form) →
  ∃ s1, upload_shapefiles true form s
        = (Uploaded
             ((splitext_root ∘ filename)
                <$> filter (λ file, ingests file = true) (getlist "files" form))
             (filename
                <$> filter (λ file, ingests file = false) (getlist "files" form)),
           (save_order (extend_order (load_saved_order s) (keys (layers s1))) s1).2)
    ∧ order_file s1 = order_file s
    ∧ order_writable s1 = order_writable s
    ∧ (dict_wf (layers s) → dict_wf (layers s1)).
Proof.
  intros Hfiles Hsav. unfold upload_shapefiles. simpl.
  destruct (upload_loop_spec (getlist "files" form) [] [] s Hsav)
    as (s1 & Hloop & Hf & Hw & Hd).
  destruct (getlist "files" form) as [|file files] eqn:Hg; [done|].
  rewrite Hloop. exists s1. split; [|done].
  unfold load_saved_order. by rewrite Hf.
Qed.
End handlers.

(** ** The layers object as it is sent *)

Section sort_keys_facts.
Context {V : Type}.
Implicit Types (d : pydict V) (k : string) (v : V).

#[local] Instance key_le_trans : Transitive (@key_le V).
Proof. intros a b c. unfold key_le. apply transitivity. Qed.

#[local] Instance key_le_total : Total (@key_le V).
Proof. intros a b. unfold key_le. apply total, _. Qed.

Lemma sort_keys_Permutation d : sort_keys d ≡ₚ d.
Proof. apply merge_sort_Permutation. Qed.

Lemma keys_sort_keys d : keys (sort_keys d) = sorted (keys d).
Proof.
  unfold keys. apply (StronglySorted_unique String.le).
  - apply (StronglySorted_fmap _ key_le); [by intros a b|].
    apply StronglySorted_merge_sort; apply _.
  - apply sorted_StronglySorted.
  - rewrite sort_keys_Permutation. unfold sorted.
    by rewrite merge_sort_Permutation.
Qed.

Lemma get_Some_elem_of k v d :
  NoDup (keys d) → get k d = Some v ↔ (k, v) ∈ d.
Proof.
  unfold keys. induction d as [|[k' v'] d IH]; cbn [get].
  - intros _. split; [done|by intros ?%elem_of_nil].
  - rewrite fmap_cons, NoDup_cons. cbn [fst]. intros [Hk' Hd].
    rewrite elem_of_cons. destruct (decide (k = k')) as [->|Hne].
    + split; [intros [= ->]; by left|]. intros [[= ->]|Hin]; [done|].
      destruct Hk'. apply list_elem_of_fmap. by exists (k', v).
    + rewrite (IH Hd). split; [by right|]. by intros [[= -> _]|Hin].
Qed.

Lemma get_sort_keys k d : NoDup (keys d) → get k (sort_keys d) = get k d.
Proof.
  intros Hd.
  assert (NoDup (keys (sort_keys d))) as Hd'.
  { unfold keys. by rewrite sort_keys_Permutation. }
  destruct (get k d) as [v|] eqn:Hget.
  - apply (get_Some_elem_of _ _ _ Hd'). rewrite sort_keys_Permutation.
    by apply (get_Some_elem_of _ _ _ Hd).
  - destruct (get k (sort_keys d)) as [v|] eqn:Hget'; [|done].
    apply (get_Some_elem_of _ _ _ Hd') in Hget'.
    rewrite sort_keys_Permutation in Hget'.
    apply (get_Some_elem_of _ _ _ Hd) in Hget'. congruence.
Qed.
End sort_keys_facts.

Section claims.
Context `{World}.
Implicit Types (s : server).

(** C2, as amended.  When every archive of the batch can be saved (so that
    the request reaches its end) and the order file can be written, the
    order an upload request persists is the loaded order as it is, followed
    by the registry names absent from it in registry iteration order:
    nothing is dropped from the loaded order and the appended names are not
    sorted. *)
Theorem upload_persists_extended_order (form : list (string * upload)) s :
  dict_wf (layers s) →
  getlist "files" form ≠ [] →
  savable_batch s (getlist "files" form) →
  order_writable s = true →
  let s' := (upload_shapefiles true form s).2 in
  let loaded := load_saved_order s in
  order_file s'
  = Document (JList (loaded ++ (JStr <$> filter (λ name, name ∉ json_strs loaded)
                                          (keys (layers s'))))).
Proof.
  intros Hwf Hfiles Hsav Hw.
  destruct (upload_shapefiles_spec form s Hfiles Hsav)
    as (s1 & -> & Hf & Hw1 & Hd).
  cbn [snd]. rewrite save_order_writable by congruence. simpl.
  rewrite extend_order_eq, dedup_first_NoDup; [done|].
  apply NoDup_filter, Hd, Hwf.
Qed.

(** X25.  When every archive of the batch can be saved, an upload of N
    files answers with two lists: the stems of the files that are ingested
    and the names of the M files that are not (a name not ending in [.zip],
    or an archive the ingestion rejects), of lengths N - M and M.  Whether
    a file is ingested depends on that file alone. *)
Theorem upload_batch_outcomes (form : list (string * upload)) s :
  let files := getlist "files" form in
  files ≠ [] →
  savable_batch s files →
  ∃ uploaded failed,
    (upload_shapefiles true form s).1 = Uploaded uploaded failed
    ∧ uploaded = ((splitext_root ∘ filename)
                    <$> filter (λ file, ingests file = true) files)
    ∧ failed = (filename <$> filter (λ file, ingests file = false) files)
    ∧ length failed = length (filter (λ file, ingests file = false) files)
    ∧ length uploaded = length files - length failed.
Proof.
  intros files Hfiles Hsav.
  destruct (upload_shapefiles_spec form s Hfiles Hsav) as (s1 & -> & _).
  eexists _, _. split_and!; [done..| |].
  - by rewrite length_fmap.
  - rewrite !length_fmap. pose proof (length_filter_split ingests files) as Hsplit.
    fold files. lia.
Qed.

(** C7.  Deleting a name that is not registered answers [LayerNotFound]
    and leaves the whole state, registry and order file included, as it
    was. *)
Theorem delete_unknown_not_found s (layer_name : string) :
  layer_name ∉ keys (layers s) →
  delete_layer true layer_name s = (LayerNotFound, s).
Proof.
  intros Hn. unfold delete_layer. simpl.
  apply get_None in Hn. by rewrite Hn.
Qed.

(** C6, as amended.  Deleting a registered name always answers [Deleted]
    and removes the name from the registry.  The next [load_saved_order]
    does not hold the name provided the order file can be written (or the
    name was not in the loaded order, in which case nothing is written).
    When the file cannot even be opened for writing, the next load returns
    the order it returned before; when the write of an order that held the
    name fails after the file was opened, the next load returns the default
    order. *)
Theorem delete_removes_layer_and_name s (layer_name : string) :
  layer_name ∈ keys (layers s) →
  let r := delete_layer true layer_name s in
  r.1 = Deleted
  ∧ (layer_name ∉ keys (layers r.2))
  ∧ (order_writable s = true ∨ layer_name ∉ json_strs (load_saved_order s) →
     JStr layer_name ∉ load_saved_order r.2)
  ∧ (order_writable s = false → fails_after_open s = false →
     load_saved_order r.2 = load_saved_order s)
  ∧ (order_writable s = false → fails_after_open s = true →
     JStr layer_name ∈ load_saved_order s →
     load_saved_order r.2 = DEFAULT_LAYER_ORDER).
Proof.
  intros [lyr Hlyr]%get_is_Some. unfold delete_layer. cbn [negb]. rewrite Hlyr.
  set (s2 := with_layers _ _).
  change (load_saved_order s2) with (load_saved_order s).
  assert (∀ order_list, layers (save_order order_list s2).2
                        = pop layer_name (layers s)) as Hlayers.
  { intros order_list. unfold save_order.
    by destruct (order_writable s2), (fails_after_open s2). }
  destruct (str_in_json layer_name (load_saved_order s)) eqn:Hin; cbn [fst snd].
  - rewrite Hlayers. split_and!; [done|apply not_elem_of_keys_pop| | |].
    + intros [Hw|Hnot].
      2:{ apply str_in_json_spec, elem_of_json_strs in Hin. done. }
      rewrite save_order_writable by done. cbn [snd].
      unfold load_saved_order. cbn [order_file with_order_file].
      intros [Hne _]%list_elem_of_filter. cbn in Hne.
      by rewrite bool_decide_eq_true_2 in Hne.
    + intros Hw Hopen. unfold save_order.
      change (order_writable s2) with (order_writable s).
      change (fails_after_open s2) with (fails_after_open s).
      by rewrite Hw, Hopen.
    + intros Hw Hopen _. unfold save_order.
      change (order_writable s2) with (order_writable s).
      change (fails_after_open s2) with (fails_after_open s).
      by rewrite Hw, Hopen.
  - split_and!; [done|apply not_elem_of_keys_pop| |done|].
    + intros _. change (load_saved_order s2) with (load_saved_order s).
      intros Hn%str_in_json_spec. congruence.
    + intros _ _ Hn%str_in_json_spec. congruence.
Qed.

(** C5.  [load_saved_order] returns the stored list when the order file
    decodes to a list, and the default order ["P_Location", "Taluka"] when
    the file is missing, unreadable, malformed or holds something else. *)
Theorem load_saved_order_cases s (data : list json) :
  load_saved_order (with_order_file s (Document (JList data))) = data
  ∧ load_saved_order (with_order_file s Missing)
    = [JStr "P_Location"; JStr "Taluka"]
  ∧ load_saved_order (with_order_file s Malformed)
    = [JStr "P_Location"; JStr "Taluka"]
  ∧ load_saved_order (with_order_file s Unreadable)
    = [JStr "P_Location"; JStr "Taluka"]
  ∧ ∀ v, (∀ l, v ≠ JList l) →
      load_saved_order (with_order_file s (Document v))
      = [JStr "P_Location"; JStr "Taluka"].
Proof.
  split_and!; [done..|]. intros v Hv. unfold load_saved_order. simpl.
  destruct v; try done. by destruct (Hv l).
Qed.

(** C3.  The listing never raises, and its order is the loaded-order names
    that are registered, in their original relative order without
    repetition, followed by the remaining registered names in ascending
    lexicographic order. *)
Theorem listing_order (admin : bool) s :
  let present := keys (layers s) in
  let kept := kept_names (load_saved_order s) present in
  ∃ resp rest,
    get_layers admin s = Some resp
    ∧ order resp = kept ++ rest
    ∧ StronglySorted String.le rest
    ∧ NoDup rest
    ∧ ∀ name, name ∈ rest ↔ name ∈ present ∧ name ∉ kept.
Proof.
  intros present kept.
  destruct (get_layers_listing admin s) as (resp & Hresp & _ & Hord & _).
  exists resp, (dedup_first (filter (λ x, x ∉ kept) (sorted present))).
  split_and!; [done| | | |].
  - by rewrite Hord, reconcile_eq.
  - apply StronglySorted_dedup_first, StronglySorted_filter, sorted_StronglySorted.
  - apply NoDup_dedup_first.
  - intros name.
    rewrite elem_of_dedup_first, list_elem_of_filter, elem_of_sorted. tauto.
Qed.

(** C10, as amended.  The dictionary the listing hands to [jsonify] has
    the names of the order list as its keys, in the same sequence.  In the
    response the [layers] object has the same set of names as the order
    list, each mapped to its registered record, but enumerates them in
    ascending key order: the display sequence is carried by the order list
    alone. *)
Theorem listing_layers_follow_order (admin : bool) s :
  ∃ resp,
    get_layers admin s = Some resp
    ∧ keys (listed_layers resp) = order resp
    ∧ keys (sent_layers resp) = sorted (order resp)
    ∧ (∀ name, name ∈ keys (sent_layers resp) ↔ name ∈ order resp)
    ∧ ∀ name, name ∈ order resp →
        ∃ lyr, get name (sent_layers resp) = Some lyr
               ∧ get name (layers s) = Some lyr.
Proof.
  destruct (get_layers_listing admin s)
    as (resp & Hresp & _ & Hord & Hkeys & Hget & _).
  assert (NoDup (keys (listed_layers resp))) as Hnd.
  { rewrite Hkeys, Hord. apply NoDup_reconcile. }
  assert (keys (sent_layers resp) = sorted (order resp)) as Hsent.
  { unfold sent_layers. by rewrite keys_sort_keys, Hkeys. }
  exists resp. split_and!; [done..| |].
  - intros name. by rewrite Hsent, elem_of_sorted.
  - intros name Hname. unfold sent_layers.
    rewrite get_sort_keys, (Hget name Hname) by done.
    destruct (get name (layers s)) as [lyr|] eqn:Hlyr; [by exists lyr|].
    apply get_None in Hlyr. destruct Hlyr.
    rewrite Hord in Hname. by apply elem_of_reconcile in Hname.
Qed.

(** X24.  The bounds of the listing are computed from the layers whose
    bounding box can be computed, the others being skipped: there are no
    bounds when no layer gives a box, and when no coordinate of the boxes is
    NaN the bounds are their union rectangle
    [[[min_lat, min_lon], [max_lat, max_lon]]]. *)
Theorem listing_bounds (admin : bool) s :
  ∃ resp,
    get_layers admin s = Some resp
    ∧ let yielded :=
        omap (λ lyr, total_bounds (geojson lyr)) (values (listed_layers resp)) in
      (yielded = [] → bounds resp = None)
      ∧ (yielded ≠ [] → Forall bbox_numeric yielded →
         ∃ r, bounds resp = Some r ∧ union_rect r yielded).
Proof.
  destruct (get_layers_listing admin s) as (resp & Hresp & _ & _ & _ & _ & Hb).
  exists resp. split; [done|]. simpl. fold (collect_bounds (listed_layers resp)).
  rewrite Hb. split.
  - by intros ->.
  - apply bounds_of_union.
Qed.
End claims.

(** ** The handler of [set_order] answers with the cleaned order *)

Lemma set_order_saves_clean_order `{World} (s : server) (o : list (string * json))
    (new_order : list json) :
  get "order" o = Some (JList new_order) →
  order_writable s = true →
  let cleaned := clean_order new_order (keys (layers s)) in
  set_order true (JObj o) s
  = (OrderSaved cleaned, with_order_file s (Document (JList (JStr <$> cleaned)))).
Proof.
  intros Ho Hw. unfold set_order. simpl.
  destruct o as [|kv o]; [done|].
  rewrite bool_decide_eq_false_2 by done. simpl negb. cbv iota.
  rewrite Ho. simpl. by rewrite save_order_writable.
Qed.

(** ** Concrete runs *)

#[local] Existing Instance Demo.world.

Lemma clean_order_policy_witness :
  NoDup ["b"; "a"]
  ∧ (let kept := filter (λ s, s ∈ ["b"; "a"])
                   (json_strs [JStr "a"; JStr "zz"; JInt 4]) in
     clean_order [JStr "a"; JStr "zz"; JInt 4] ["b"; "a"]
     = kept ++ filter (λ s, s ∉ kept) ["b"; "a"]
     ∧ (∀ x, x ∈ clean_order [JStr "a"; JStr "zz"; JInt 4] ["b"; "a"]
             → x ∈ ["b"; "a"])
     ∧ (∀ x, x ∈ ["b"; "a"]
             → x ∈ clean_order [JStr "a"; JStr "zz"; JInt 4] ["b"; "a"])
     ∧ (NoDup kept → NoDup (clean_order [JStr "a"; JStr "zz"; JInt 4] ["b"; "a"]))).
Proof.
  assert (Hnd : NoDup ["b"; "a"]) by compute_done.
  split; [exact Hnd|].
  exact (clean_order_policy [JStr "a"; JStr "zz"; JInt 4] ["b"; "a"] Hnd).
Defined.

(** A registered name requested twice is answered, and saved, twice. *)
Lemma clean_order_repeats_name :
  NoDup (keys (layers (Demo.one_layer true)))
  ∧ set_order true (JObj [("order", JList [JStr "A"; JStr "A"])]) (Demo.one_layer true)
    = (OrderSaved ["A"; "A"],
       with_order_file (Demo.one_layer true)
         (Document (JList [JStr "A"; JStr "A"])))
  ∧ clean_order [JStr "A"; JStr "A"] (keys (layers (Demo.one_layer true)))
    = ["A"; "A"]
  ∧ ¬ NoDup (clean_order [JStr "A"; JStr "A"] (keys (layers (Demo.one_layer true)))).
Proof. split_and!; [compute_done|done|done|compute_done]. Qed.

Lemma upload_persists_extended_order_witness :
  dict_wf (layers Demo.two_layers)
  ∧ getlist "files" Demo.batch ≠ []
  ∧ savable_batch Demo.two_layers (getlist "files" Demo.batch)
  ∧ order_writable Demo.two_layers = true
  ∧ (let s' := (upload_shapefiles true Demo.batch Demo.two_layers).2 in
     let loaded := load_saved_order Demo.two_layers in
     order_file s'
     = Document (JList (loaded ++ (JStr <$> filter (λ name, name ∉ json_strs loaded)
                                             (keys (layers s')))))).
Proof.
  assert (Hwf : dict_wf (layers Demo.two_layers)) by compute_done.
  assert (Hfiles : getlist "files" Demo.batch ≠ []) by compute_done.
  assert (Hsav : savable_batch Demo.two_layers (getlist "files" Demo.batch))
    by compute_done.
  split_and!; [exact Hwf|exact Hfiles|exact Hsav|reflexivity|].
  exact (upload_persists_extended_order Demo.batch Demo.two_layers
           Hwf Hfiles Hsav eq_refl).
Defined.

(** Uploading [b.zip] then [a.zip] into an empty registry persists the
    default names followed by [b], [a]; reconciling the same loaded order
    against the same registry gives [a], [b]. *)
Lemma upload_order_differs_from_reconcile :
  let s' := (upload_shapefiles true Demo.batch Demo.fresh).2 in
  dict_wf (layers Demo.fresh)
  ∧ keys (layers s') = ["b"; "a"]
  ∧ order_file s'
    = Document (JList [JStr "P_Location"; JStr "Taluka"; JStr "b"; JStr "a"])
  ∧ reconcile (load_saved_order Demo.fresh) (keys (layers s')) = ["a"; "b"]
  ∧ order_file s'
    ≠ Document (JList (JStr <$> reconcile (load_saved_order Demo.fresh)
                                  (keys (layers s')))).
Proof.
  split_and!; [compute_done|by vm_compute..|].
  vm_compute. discriminate.
Qed.

Lemma delete_removes_layer_and_name_witness :
  "A" ∈ keys (layers (Demo.one_layer true))
  ∧ (let r := delete_layer true "A" (Demo.one_layer true) in
     r.1 = Deleted
     ∧ ("A" ∉ keys (layers r.2))
     ∧ (order_writable (Demo.one_layer true) = true
        ∨ "A" ∉ json_strs (load_saved_order (Demo.one_layer true)) →
        JStr "A" ∉ load_saved_order r.2)
     ∧ (order_writable (Demo.one_layer true) = false →
        fails_after_open (Demo.one_layer true) = false →
        load_saved_order r.2 = load_saved_order (Demo.one_layer true))
     ∧ (order_writable (Demo.one_layer true) = false →
        fails_after_open (Demo.one_layer true) = true →
        JStr "A" ∈ load_saved_order (Demo.one_layer true) →
        load_saved_order r.2 = DEFAULT_LAYER_ORDER)).
Proof.
  assert (Hin : "A" ∈ keys (layers (Demo.one_layer true))) by compute_done.
  split; [exact Hin|].
  exact (delete_removes_layer_and_name (Demo.one_layer true) "A" Hin).
Defined.

(** When the order file cannot be written, a deleted name is still in the
    order loaded next. *)
Lemma delete_keeps_name_when_save_fails :
  let r := delete_layer true "A" (Demo.one_layer false) in
  "A" ∈ keys (layers (Demo.one_layer false))
  ∧ r.1 = Deleted
  ∧ ("A" ∉ keys (layers r.2))
  ∧ load_saved_order r.2 = [JStr "Taluka"; JStr "A"]
  ∧ JStr "A" ∈ load_saved_order r.2.
Proof.
  split_and!; [compute_done|done|compute_done|done|].
  change (JStr "A" ∈ [JStr "Taluka"; JStr "A"]).
  rewrite !elem_of_cons. auto.
Qed.

Lemma delete_unknown_not_found_witness :
  ("Roads" ∉ keys (layers (Demo.one_layer true)))
  ∧ delete_layer true "Roads" (Demo.one_layer true)
    = (LayerNotFound, Demo.one_layer true).
Proof.
  assert (Hn : "Roads" ∉ keys (layers (Demo.one_layer true))) by compute_done.
  split; [exact Hn|].
  exact (delete_unknown_not_found (Demo.one_layer true) "Roads" Hn).
Defined.

Lemma upload_batch_outcomes_witness :
  getlist "files" Demo.batch ≠ []
  ∧ savable_batch Demo.fresh (getlist "files" Demo.batch)
  ∧ ∃ uploaded failed,
      (upload_shapefiles true Demo.batch Demo.fresh).1 = Uploaded uploaded failed
      ∧ uploaded = ((splitext_root ∘ filename)
                      <$> filter (λ file, ingests file = true)
                            (getlist "files" Demo.batch))
      ∧ failed = (filename <$> filter (λ file, ingests file = false)
                                 (getlist "files" Demo.batch))
      ∧ length failed
        = length (filter (λ file, ingests file = false) (getlist "files" Demo.batch))
      ∧ length uploaded = length (getlist "files" Demo.batch) - length failed.
Proof.
  assert (Hfiles : getlist "files" Demo.batch ≠ []) by compute_done.
  assert (Hsav : savable_batch Demo.fresh (getlist "files" Demo.batch))
    by compute_done.
  split_and!; [exact Hfiles|exact Hsav|].
  exact (upload_batch_outcomes Demo.batch Demo.fresh Hfiles Hsav).
Defined.

Lemma upload_batch_example :
  (upload_shapefiles true Demo.batch Demo.fresh).1
  = Uploaded ["b"; "a"] ["notes.txt"; "empty.zip"].
Proof. by vm_compute. Qed.

Lemma listing_bounds_witness :
  ∃ resp,
    get_layers false Demo.two_layers = Some resp
    ∧ omap (λ lyr, total_bounds (geojson lyr)) (values (listed_layers resp))
      = [Demo.box_b; Demo.box_a]
    ∧ Forall bbox_numeric [Demo.box_b; Demo.box_a]
    ∧ ∃ r, bounds resp = Some r ∧ union_rect r [Demo.box_b; Demo.box_a].
Proof.
  destruct (listing_bounds false Demo.two_layers) as (resp & Hresp & _ & Hsome).
  exists resp. vm_compute in Hresp. injection Hresp as <-.
  assert (Hnum : Forall bbox_numeric [Demo.box_b; Demo.box_a])
    by (repeat constructor).
  split_and!; [reflexivity|reflexivity|exact Hnum|].
  apply Hsome; [discriminate|exact Hnum].
Defined.

(** C9.  A layer whose geometries are all null gives a box of NaN without
    raising.  Listed first, it makes the bounds of the listing NaN: they are
    the union rectangle neither of the two boxes nor of the numeric one.
    Listed after the numeric layer, the same box is passed over and the
    bounds are the union rectangle of the numeric layer alone. *)
Theorem null_geometry_layer_spoils_bounds :
  (∃ resp r,
     get_layers false Demo.null_first = Some resp
     ∧ omap (λ lyr, total_bounds (geojson lyr)) (values (listed_layers resp))
       = [Demo.box_nan; Demo.box_b]
     ∧ bounds resp = Some r
     ∧ r = ((S754_nan, S754_nan), (S754_nan, S754_nan))
     ∧ ¬ union_rect r [Demo.box_nan; Demo.box_b]
     ∧ ¬ union_rect r [Demo.box_b])
  ∧ (∃ resp r,
       get_layers false DemoStart.null_last = Some resp
       ∧ omap (λ lyr, total_bounds (geojson lyr)) (values (listed_layers resp))
         = [Demo.box_b; Demo.box_nan]
       ∧ bounds resp = Some r
       ∧ r = ((Demo.f1, Demo.f2), (Demo.f3, Demo.f4))
       ∧ union_rect r [Demo.box_b]).
Proof.
  split.
  - eexists _, _. split_and!; [by vm_compute|done|done|done|..].
    + intros [[_ Hlow] _]. specialize (Hlow S754_nan). simpl in Hlow.
      discriminate Hlow. left.
    + intros [[_ Hlow] _]. specialize (Hlow Demo.f1). simpl in Hlow.
      discriminate Hlow. left.
  - eexists _, _. split_and!; [by vm_compute|done|done|done|].
    unfold union_rect, least_of, greatest_of. cbn.
    split_and!; try apply list_elem_of_singleton; try done;
      by intros y ->%list_elem_of_singleton.
Qed.

(** C8.  A batch with one file that cannot be saved: [sub/x.zip] names a
    directory that does not exist, so [file.save] raises and the request
    answers with no lists at all.  Placed first, the file keeps [b.zip] from
    being looked at, although [b.zip] uploaded alone is ingested; placed
    last, it leaves [b] registered, with no answer saying so and no order
    saved. *)
Theorem upload_batch_aborted_by_unsavable_file :
  upload_shapefiles true DemoStart.blocked_batch Demo.fresh
  = (UploadRaised, Demo.fresh)
  ∧ ingests (Upload "b.zip" "b") = true
  ∧ (upload_shapefiles true DemoStart.only_b Demo.fresh).1 = Uploaded ["b"] []
  ∧ (let r := upload_shapefiles true DemoStart.blocked_last Demo.fresh in
     r.1 = UploadRaised
     ∧ keys (layers r.2) = ["b"]
     ∧ order_file r.2 = order_file Demo.fresh).
Proof. split_and!; by vm_compute. Qed.

(** The registry holds [b] then [a] and the order file names [b]: the order
    list is [b], [a], and so are the keys of the dictionary handed to
    [jsonify], but the [layers] object of the response enumerates [a] before
    [b]. *)
Lemma sent_layers_not_in_listing_order :
  ∃ resp,
    get_layers false Demo.two_layers = Some resp
    ∧ order resp = ["b"; "a"]
    ∧ keys (listed_layers resp) = ["b"; "a"]
    ∧ keys (sent_layers resp) = ["a"; "b"]
    ∧ keys (sent_layers resp) ≠ order resp.
Proof.
  eexists. split_and!; [by vm_compute..|]. vm_compute. discriminate.
Qed.

(** The write of the order fails after the file was opened: the file is left
    cut short and the next load gives the default order, in which the other
    saved names have lost their place. *)
Lemma delete_with_torn_write :
  let r := delete_layer true "A" DemoStart.torn_write in
  r.1 = Deleted
  ∧ order_file r.2 = Malformed
  ∧ load_saved_order r.2 = [JStr "P_Location"; JStr "Taluka"].
Proof. split_and!; by vm_compute. Qed.

(** ** More on the ordering policies *)

Lemma json_strs_app (a b : list json) :
  json_strs (a ++ b) = json_strs a ++ json_strs b.
Proof. unfold json_strs. apply omap_app. Qed.

Lemma dedup_first_app_fresh (known fresh : list string) :
  NoDup fresh → (∀ x, x ∈ fresh → x ∉ known) →
  dedup_first (known ++ fresh) = dedup_first known ++ fresh.
Proof.
  intros Hnd Hfresh. induction known as [|x known IH]; simpl.
  - by apply dedup_first_NoDup.
  - rewrite IH, filter_app.
    + f_equal. f_equal. apply filter_all. intros y Hy ->.
      apply (Hfresh x Hy). left.
    + intros y Hy Hk. apply (Hfresh y Hy). by right.
Qed.

Lemma clean_order_eq (new_order : list json) (present : list string) :
  let kept := filter (λ s, s ∈ present) (json_strs new_order) in
  clean_order new_order present
  = kept ++ dedup_first (filter (λ s, s ∉ kept) present).
Proof.
  intros kept. unfold clean_order.
  by rewrite clean_order_filter, foldl_append_if_new.
Qed.

Lemma elem_of_clean_order (new_order : list json) (present : list string) x :
  x ∈ clean_order new_order present ↔ x ∈ present.
Proof.
  rewrite clean_order_eq, elem_of_app, elem_of_dedup_first, !list_elem_of_filter.
  destruct (decide (x ∈ json_strs new_order)); tauto.
Qed.

Lemma reconcile_covering (order : list string) (present : list string) :
  (∀ x, x ∈ order ↔ x ∈ present) →
  reconcile (JStr <$> order) present = dedup_first order.
Proof.
  intros Hcover. rewrite reconcile_eq. unfold kept_names.
  rewrite json_strs_fmap, (filter_all (λ s, s ∈ present)) by (intros; by apply Hcover).
  rewrite filter_none; [by rewrite app_nil_r|].
  intros x Hx Hn. apply Hn. rewrite elem_of_dedup_first. apply Hcover.
  by rewrite elem_of_sorted in Hx.
Qed.

Lemma reconcile_extend_order (loaded : list json) (present : list string) :
  NoDup present →
  reconcile (extend_order loaded present) present
  = kept_names loaded present
    ++ filter (λ name, name ∉ json_strs loaded) present.
Proof.
  intros Hnd. rewrite reconcile_eq, extend_order_eq.
  rewrite (dedup_first_NoDup (filter _ present)) by by apply NoDup_filter.
  set (fresh := filter (λ name, name ∉ json_strs loaded) present).
  assert (kept_names (loaded ++ (JStr <$> fresh)) present
          = kept_names loaded present ++ fresh) as ->.
  { unfold kept_names. rewrite json_strs_app, json_strs_fmap, filter_app.
    rewrite (filter_all _ fresh).
    2:{ intros x Hx. apply list_elem_of_filter in Hx. tauto. }
    apply dedup_first_app_fresh; [by apply NoDup_filter|].
    intros x Hx Hk. apply list_elem_of_filter in Hx, Hk. tauto. }
  rewrite filter_none; [by rewrite app_nil_r|].
  intros x Hx Hn. apply Hn. rewrite elem_of_sorted in Hx.
  rewrite elem_of_app, elem_of_kept_names. unfold fresh.
  rewrite list_elem_of_filter, <-elem_of_json_strs.
  destruct (decide (x ∈ json_strs loaded)); tauto.
Qed.

(** X2.  The order computed by [set_order], sent back as a request against the
    same registry, is computed to itself. *)
Theorem clean_order_idempotent (new_order : list json) (present : list string) :
  clean_order (JStr <$> clean_order new_order present) present
  = clean_order new_order present.
Proof.
  set (cleaned := clean_order new_order present).
  rewrite clean_order_eq, json_strs_fmap.
  rewrite (filter_all (λ s, s ∈ present))
    by (intros x Hx; by apply elem_of_clean_order in Hx).
  rewrite filter_none; [by rewrite app_nil_r|].
  intros x Hx Hn. apply Hn. by apply elem_of_clean_order.
Qed.

(** ** More on dictionaries *)

Section dict_more.
Context {V : Type}.
Implicit Types (d : pydict V) (k : string) (v : V).

Lemma keys_pop k d : keys (pop k d) = filter (λ k', k' ≠ k) (keys d).
Proof.
  unfold keys, pop. induction d as [|[k' v'] d IH]; [done|].
  rewrite fmap_cons. cbn [fst]. destruct (decide (k' = k)) as [->|Hne].
  - rewrite (filter_cons_False (λ kv : string * V, kv.1 ≠ k)) by (by intros ?).
    rewrite filter_cons_False by (by intros ?). apply IH.
  - rewrite (filter_cons_True (λ kv : string * V, kv.1 ≠ k)) by done.
    rewrite filter_cons_True by done. rewrite fmap_cons. cbn [fst].
    f_equal. apply IH.
Qed.

Lemma get_pop_ne k k' d : k' ≠ k → get k' (pop k d) = get k' d.
Proof.
  intros Hne. unfold pop. induction d as [|[k0 v0] d IH]; [done|].
  destruct (decide (k0 = k)) as [->|Hk].
  - rewrite (filter_cons_False (λ kv : string * V, kv.1 ≠ k)) by (by intros ?).
    cbn [get]. rewrite decide_False by done. apply IH.
  - rewrite (filter_cons_True (λ kv : string * V, kv.1 ≠ k)) by done.
    cbn [get]. destruct (decide (k' = k0)); [done|apply IH].
Qed.

Lemma pop_absent k d : k ∉ keys d → pop k d = d.
Proof.
  intros Hk. unfold pop. apply filter_all. intros [k' v'] Hin. cbn [fst].
  intros ->. apply Hk. unfold keys. apply list_elem_of_fmap. by exists (k, v').
Qed.

Lemma dict_single k v d : keys d = [k] → get k d = Some v → d = [(k, v)].
Proof.
  unfold keys. destruct d as [|[k' v'] [|? ?]]; intros [=] Hget; subst.
  cbn in Hget. rewrite decide_True in Hget by done. congruence.
Qed.
End dict_more.

Section handlers_more.
Context `{World}.
Implicit Types (s : server).

(** ** Order store *)

Lemma save_order_layers (order_list : list json) s :
  layers (save_order order_list s).2 = layers s.
Proof.
  unfold save_order. by destruct (order_writable s), (fails_after_open s).
Qed.

Lemma save_order_folder (order_list : list json) s :
  folder (save_order order_list s).2 = folder s.
Proof.
  unfold save_order. by destruct (order_writable s), (fails_after_open s).
Qed.

(** ** Set order *)

(** X3.  After [set_order] has saved an order, the listing shows that order with
    repeated names dropped after their first occurrence; it shows exactly
    the answered order when that has no repetition. *)
Theorem listing_after_set_order (admin : bool) (o : list (string * json))
    (new_order : list json) s :
  get "order" o = Some (JList new_order) →
  order_writable s = true →
  let r := set_order true (JObj o) s in
  ∃ cleaned resp,
    r.1 = OrderSaved cleaned
    ∧ get_layers admin r.2 = Some resp
    ∧ order resp = dedup_first cleaned
    ∧ (NoDup cleaned → order resp = cleaned).
Proof.
  intros Ho Hw r. unfold r.
  rewrite (set_order_saves_clean_order s o new_order Ho Hw). cbn [fst snd].
  set (cleaned := clean_order new_order (keys (layers s))).
  destruct (get_layers_listing admin
              (with_order_file s (Document (JList (JStr <$> cleaned)))))
    as (resp & Hresp & _ & Hord & _).
  exists cleaned, resp. split_and!; [done..| |].
  - rewrite Hord. apply reconcile_covering. intros x. apply elem_of_clean_order.
  - intros Hnd. rewrite Hord. etrans; [|by apply dedup_first_NoDup].
    apply reconcile_covering. intros x. apply elem_of_clean_order.
Qed.

(** X4.  A request whose body is falsy (null, an empty object, ...) or has no
    [order] key is treated as the empty order: the registry names are
    saved and answered in registry iteration order. *)
Theorem set_order_without_order (body : json) s :
  dict_wf (layers s) →
  order_writable s = true →
  truthy body = false ∨ (∃ o, body = JObj o ∧ get "order" o = None) →
  set_order true body s
  = (OrderSaved (keys (layers s)),
     with_order_file s (Document (JList (JStr <$> keys (layers s))))).
Proof.
  intros Hwf Hw Hbody.
  assert (clean_order [] (keys (layers s)) = keys (layers s)) as Hclean.
  { unfold clean_order. cbn [omap list_omap]. rewrite foldl_append_if_new.
    rewrite filter_all by (intros ? _; apply not_elem_of_nil).
    by apply dedup_first_NoDup. }
  unfold set_order. cbn [negb].
  destruct Hbody as [->|(o & -> & Ho)].
  - cbn. rewrite Hclean. by rewrite save_order_writable.
  - destruct (truthy (JObj o)); rewrite ?Ho; cbn; rewrite Hclean;
      by rewrite save_order_writable.
Qed.

(** X5.  [set_order] never changes the registry or the upload folder.  A
    request that is refused (403), whose order is not a list (400) or whose
    body makes the handler raise changes nothing at all.  A request answered
    500 leaves the order file as it was when the file could not be opened,
    and cut short (so that the next load gives the default order) when the
    write failed after the file was opened. *)
Theorem set_order_touches_only_order_file (admin : bool) (body : json) s :
  let r := set_order admin body s in
  layers r.2 = layers s
  ∧ folder r.2 = folder s
  ∧ (r.1 = SetForbidden ∨ r.1 = SetNotAList ∨ r.1 = SetRaised → r.2 = s)
  ∧ (r.1 = SaveFailed →
     if fails_after_open s
     then order_file r.2 = Malformed ∧ load_saved_order r.2 = DEFAULT_LAYER_ORDER
     else r.2 = s).
Proof.
  unfold set_order. destruct admin; [|done]. cbn [negb].
  destruct (if truthy body then body else JObj []) as [| | | | | |o]; try done.
  destruct (default (JList []) (get "order" o)) as [| | | | |new_order|]; try done.
  unfold save_order.
  destruct (order_writable s), (fails_after_open s); cbn [fst snd];
    (split_and!; [done..| |]); try done; by intros [|[|]].
Qed.
End handlers_more.

Section ingestion_more.
Context `{World}.
Implicit Types (s : server).

(** ** Archive ingestion *)

Lemma load_zip_frame (path : string) s :
  let r := load_zip_into_layers path s in
  order_file r.2 = order_file s
  ∧ order_writable r.2 = order_writable s
  ∧ folder r.2 = folder s.
Proof.
  unfold load_zip_into_layers. destruct (folder s !! path); [|done].
  by destruct (read_archive _).
Qed.

(** X6.  [load_zip_into_layers] never touches the order file or the upload
    folder; when it returns [False] the whole state is as before; it
    returns [True] exactly when the archive exists at the path and is
    ingested. *)
Theorem load_zip_all_or_nothing (path : string) s :
  let r := load_zip_into_layers path s in
  order_file r.2 = order_file s
  ∧ order_writable r.2 = order_writable s
  ∧ folder r.2 = folder s
  ∧ (r.1 = false → r.2 = s)
  ∧ (r.1 = true ↔ ∃ bytes, folder s !! path = Some bytes
                            ∧ is_Some (read_archive bytes)).
Proof.
  unfold load_zip_into_layers.
  destruct (folder s !! path) as [bytes|]; cbn.
  2:{ split_and!; [done..|]. split; [done|]. by intros (? & ? & ?). }
  destruct (read_archive bytes) as [g|] eqn:Hg; cbn.
  - split_and!; [done..|]. split; [|done]. intros _. exists bytes. by rewrite Hg.
  - split_and!; [done..|]. split; [done|]. intros (? & [= <-] & [? ?]). congruence.
Qed.

(** X7.  A successful [load_zip_into_layers] registers the layer under the
    base name of the archive without its extension, with the parsed
    geometry, opacity 0.7 and the archive path; the other layers keep their
    records, and the name keeps its place in the registry if it was there
    and goes last otherwise. *)
Theorem load_zip_registers_layer (path bytes : string) (g : geo) s :
  folder s !! path = Some bytes →
  read_archive bytes = Some g →
  let r := load_zip_into_layers path s in
  let name := layer_name_of path in
  r.1 = true
  ∧ (∃ lyr, get name (layers r.2) = Some lyr
            ∧ geojson lyr = g ∧ zip_path lyr = path
            ∧ opacity lyr = opacity_default)
  ∧ (∀ k, k ≠ name → get k (layers r.2) = get k (layers s))
  ∧ keys (layers r.2)
    = (if decide (name ∈ keys (layers s)) then keys (layers s)
       else keys (layers s) ++ [name]).
Proof.
  intros Hf Hg. unfold load_zip_into_layers, layer_name_of. rewrite Hf, Hg. cbn.
  split_and!; [done| | |].
  - eexists. by rewrite get_set_eq.
  - intros k Hk. by apply get_set_ne.
  - apply keys_set.
Qed.

Lemma load_zip_keys (path : string) s :
  let r := load_zip_into_layers path s in
  (∀ k, k ∈ keys (layers s) → k ∈ keys (layers r.2))
  ∧ (∀ k, k ∈ keys (layers r.2) →
       k ∈ keys (layers s) ∨ (r.1 = true ∧ k = layer_name_of path))
  ∧ (r.1 = true → layer_name_of path ∈ keys (layers r.2)).
Proof.
  unfold load_zip_into_layers, layer_name_of.
  destruct (folder s !! path) as [bytes|]; cbn [fst snd]; [|by intuition].
  destruct (read_archive bytes) as [g|]; cbn [fst snd layers]; [|by intuition].
  rewrite keys_set. case_decide.
  - by intuition.
  - setoid_rewrite elem_of_app. setoid_rewrite list_elem_of_singleton.
    by intuition.
Qed.
End ingestion_more.

(** ** Paths of uploaded files *)

Lemma rfind_from_plain (name : string) (i : nat) :
  plain_name name → rfind_from sep name i = None.
Proof.
  unfold plain_name. revert i. induction name as [|a r IH]; intros i Hp; [done|].
  cbn in Hp. apply Forall_cons in Hp as [Ha Hr].
  cbn. rewrite IH by done. by rewrite decide_False.
Qed.



#[local] Instance JStr_inj : Inj (=) (=) JStr.
Proof. by intros s t [= ->]. Qed.

Lemma elem_of_extend_order (order : list json) (names : list string) k :
  JStr k ∈ extend_order order names ↔ JStr k ∈ order ∨ k ∈ names.
Proof.
  rewrite extend_order_eq, elem_of_app, (list_elem_of_fmap_inj JStr).
  rewrite elem_of_dedup_first, list_elem_of_filter, elem_of_json_strs.
  destruct (decide (k ∈ json_strs order)) as [Hk|Hk];
    rewrite elem_of_json_strs in Hk; tauto.
Qed.

Lemma parent_upload_path (name : string) :
  plain_name name → parent (path_join UPLOAD_FOLDER name) = UPLOAD_FOLDER.
Proof.
  intros Hp.
  assert (String.prefix "/" name = false) as Hprefix.
  { destruct name as [|a r]; [done|].
    unfold plain_name in Hp. cbn in Hp. apply Forall_cons in Hp as [Ha _].
    cbn [String.prefix]. destruct (ascii_dec "/" a) as [<-|]; [by destruct Ha|done]. }
  assert (path_join UPLOAD_FOLDER name = "uploads/" +:+ name) as Hjoin.
  { unfold path_join. rewrite Hprefix. reflexivity. }
  rewrite Hjoin. unfold parent, rfind, slice.
  cbv beta iota delta [String.append]. cbn [rfind_from].
  rewrite (rfind_from_plain name) by done. reflexivity.
Qed.

Section upload_more.
Context `{World}.
Implicit Types (s : server).

Lemma plain_names_savable s (files : list upload) :
  Forall (λ file, plain_name (filename file)) files → savable_batch s files.
Proof.
  unfold savable_batch. intros Hplain.
  eapply Forall_impl; [exact Hplain|]. intros file Hfile _.
  unfold can_save. rewrite parent_upload_path by done.
  by rewrite bool_decide_eq_true_2.
Qed.

Lemma load_zip_dirs (path : string) s :
  dirs (load_zip_into_layers path s).2 = dirs s.
Proof.
  unfold load_zip_into_layers. destruct (folder s !! path); [|done].
  by destruct (read_archive _).
Qed.

Lemma upload_one_frame acc s (file : upload) :
  let r := upload_one (acc, s) file in
  order_file r.2 = order_file s
  ∧ dirs r.2 = dirs s
  ∧ ∀ name, name ∈ keys (layers s) → name ∈ keys (layers r.2).
Proof.
  unfold upload_one. destruct acc as [[uploaded failed]|]; [|done].
  destruct (negb (is_zip_name (filename file))); [done|].
  set (path := path_join UPLOAD_FOLDER (filename file)).
  destruct (can_save s path); [|done].
  set (s1 := with_folder s _).
  destruct (load_zip_frame path s1) as (Hf & _).
  pose proof (load_zip_dirs path s1) as Hd.
  destruct (load_zip_keys path s1) as (Hmono & _).
  by destruct (load_zip_into_layers path s1) as [[] s2].
Qed.

Lemma upload_loop_raised (files : list upload) s :
  foldl upload_one (None, s) files = (None, s).
Proof. induction files as [|file files IH]; [done|]. cbn [foldl]. apply IH. Qed.

Lemma upload_saved_order (form : list (string * upload)) s :
  getlist "files" form ≠ [] →
  savable_batch s (getlist "files" form) →
  order_writable s = true →
  let s' := (upload_shapefiles true form s).2 in
  load_saved_order s' = extend_order (load_saved_order s) (keys (layers s')).
Proof.
  intros Hfiles Hsav Hw.
  destruct (upload_shapefiles_spec form s Hfiles Hsav)
    as (s1 & -> & Hf & Hw1 & _).
  cbn [snd]. by rewrite save_order_writable by congruence.
Qed.

(** X10.  When every archive of the batch can be saved and the order file
    can be written, the order saved by an upload starts with the order
    loaded before it and holds every registered name. *)
Theorem upload_saved_order_covers_registry (form : list (string * upload)) s :
  getlist "files" form ≠ [] →
  savable_batch s (getlist "files" form) →
  order_writable s = true →
  let s' := (upload_shapefiles true form s).2 in
  load_saved_order s `prefix_of` load_saved_order s'
  ∧ ∀ name, name ∈ keys (layers s') → JStr name ∈ load_saved_order s'.
Proof.
  intros Hfiles Hsav Hw s'. unfold s'. rewrite upload_saved_order by done. split.
  - rewrite extend_order_eq. by apply prefix_app_r.
  - intros name Hname. apply elem_of_extend_order. by right.
Qed.

(** X11.  After an upload whose archives could all be saved has saved its
    order, the listing shows the registered names of the order loaded
    before the upload (first occurrences, in that order) followed by the
    other registered names in registry iteration order: the sorted fallback
    of the listing has nothing left to add. *)
Theorem listing_after_upload (admin : bool) (form : list (string * upload)) s :
  dict_wf (layers s) →
  getlist "files" form ≠ [] →
  savable_batch s (getlist "files" form) →
  order_writable s = true →
  let s' := (upload_shapefiles true form s).2 in
  let loaded := load_saved_order s in
  ∃ resp,
    get_layers admin s' = Some resp
    ∧ order resp
      = kept_names loaded (keys (layers s'))
        ++ filter (λ name, name ∉ json_strs loaded) (keys (layers s')).
Proof.
  intros Hwf Hfiles Hsav Hw s' loaded.
  destruct (get_layers_listing admin s') as (resp & Hresp & _ & Hord & _).
  exists resp. split; [done|]. rewrite Hord. unfold s'.
  rewrite upload_saved_order by done. apply reconcile_extend_order.
  destruct (upload_shapefiles_spec form s Hfiles Hsav)
    as (s1 & -> & _ & _ & Hd).
  cbn [snd]. rewrite save_order_layers. by apply Hd.
Qed.




Lemma upload_loop_keeps_layers files acc s name :
  name ∈ keys (layers s) →
  name ∈ keys (layers (foldl upload_one (acc, s) files).2).
Proof.
  revert acc s.
  induction files as [|file files IH]; intros acc s Hin; [done|].
  cbn [foldl].
  destruct (upload_one_frame acc s file) as (_ & _ & Hmono).
  destruct (upload_one (acc, s) file) as [acc1 s1]. apply IH. by apply Hmono.
Qed.

(** X8.  An upload request never unregisters a layer. *)
Theorem upload_keeps_registered_layers (admin : bool)
    (form : list (string * upload)) s (name : string) :
  name ∈ keys (layers s) →
  name ∈ keys (layers (upload_shapefiles admin form s).2).
Proof.
  intros Hin. unfold upload_shapefiles. destruct admin; [|done]. cbn [negb].
  pose proof (upload_loop_keeps_layers (getlist "files" form) (Some ([], [])) s
                name Hin) as Hloop.
  destruct (getlist "files" form) as [|file files]; [done|].
  destruct (foldl upload_one (Some ([], []), s) (file :: files))
    as [[[uploaded failed]|] s1]; cbn [snd] in *; [|done].
  by rewrite save_order_layers.
Qed.

Lemma upload_loop_unsavable files acc s :
  Exists (unsavable s) files →
  ∃ s', foldl upload_one (acc, s) files = (None, s')
        ∧ order_file s' = order_file s.
Proof.
  revert acc s. induction files as [|file files IH]; intros acc s Hex.
  { by apply Exists_nil in Hex. }
  cbn [foldl]. destruct acc as [[uploaded failed]|].
  2:{ exists s. split; [|done]. apply (upload_loop_raised (file :: files)). }
  apply Exists_cons in Hex as [[Hzip Hsave]|Hex].
  - exists s. split; [|done]. unfold upload_one. rewrite Hzip, Hsave. cbn [negb].
    apply upload_loop_raised.
  - destruct (upload_one_frame (Some (uploaded, failed)) s file)
      as (Hf & Hd & _).
    destruct (upload_one (Some (uploaded, failed), s) file) as [acc1 s1].
    cbn [snd] in *. destruct (IH acc1 s1) as (s' & -> & Hf').
    + eapply Exists_impl; [exact Hex|]. intros f [? ?]. unfold unsavable.
      by rewrite (can_save_dirs s s1).
    + exists s'. split; [done|congruence].
Qed.

(** X26.  When [file.save] raises for one file of the batch, the request
    raises: there are no lists in the answer and no order is saved, whatever
    the other files are. *)
Theorem upload_unsavable_file_raises (form : list (string * upload)) s :
  Exists (unsavable s) (getlist "files" form) →
  let r := upload_shapefiles true form s in
  r.1 = UploadRaised ∧ order_file r.2 = order_file s.
Proof.
  intros Hex. unfold upload_shapefiles. cbn [negb].
  destruct (upload_loop_unsavable (getlist "files" form) (Some ([], [])) s Hex)
    as (s' & Hloop & Hf).
  destruct (getlist "files" form) as [|file files]; [by apply Exists_nil in Hex|].
  by rewrite Hloop.
Qed.
End upload_more.

Section delete_more.
Context `{World}.
Implicit Types (s : server).

(** ** Delete *)

Lemma delete_layer_layers (layer_name : string) s :
  layers (delete_layer true layer_name s).2 = pop layer_name (layers s).
Proof.
  unfold delete_layer. cbn [negb].
  destruct (get layer_name (layers s)) as [lyr|] eqn:Hlyr.
  - by destruct (str_in_json _ _); cbn [snd]; rewrite ?save_order_layers.
  - cbn [snd]. symmetry. by apply pop_absent, get_None.
Qed.

(** X12.  Deleting the same name a second time answers [LayerNotFound] and
    changes nothing. *)
Theorem delete_twice_not_found (layer_name : string) s :
  delete_layer true layer_name (delete_layer true layer_name s).2
  = (LayerNotFound, (delete_layer true layer_name s).2).
Proof.
  set (s' := (delete_layer true layer_name s).2).
  assert (get layer_name (layers s') = None) as Hgone.
  { apply get_None. unfold s'. rewrite delete_layer_layers.
    apply not_elem_of_keys_pop. }
  unfold delete_layer at 1. cbn [negb]. by rewrite Hgone.
Qed.

(** X13.  A delete request removes the named layer only: the other names stay
    in their order with their records, and the only file removed from the
    upload folder is the archive of the deleted layer. *)
Theorem delete_keeps_other_layers (layer_name : string) s :
  let s' := (delete_layer true layer_name s).2 in
  keys (layers s') = filter (λ name, name ≠ layer_name) (keys (layers s))
  ∧ (∀ name, name ≠ layer_name → get name (layers s') = get name (layers s))
  ∧ folder s'
    = match get layer_name (layers s) with
      | Some lyr => delete (zip_path lyr) (folder s)
      | None => folder s
      end.
Proof.
  intros s'. unfold s'. rewrite delete_layer_layers. split_and!.
  - apply keys_pop.
  - intros name Hne. by apply get_pop_ne.
  - unfold delete_layer. cbn [negb].
    destruct (get layer_name (layers s)) as [lyr|]; [|done].
    by destruct (str_in_json _ _); cbn [snd]; rewrite ?save_order_folder.
Qed.

(** X14.  When the order file can be written, the order loaded after deleting a
    registered name is the order loaded before with every occurrence of the
    name removed; the other entries, strings or not, stay in place. *)
Theorem delete_saved_order (layer_name : string) s :
  layer_name ∈ keys (layers s) →
  order_writable s = true →
  load_saved_order (delete_layer true layer_name s).2
  = filter (λ n, json_eq_str n layer_name = false) (load_saved_order s).
Proof.
  intros [lyr Hlyr]%get_is_Some Hw. unfold delete_layer. cbn [negb].
  rewrite Hlyr. set (s2 := with_layers _ _).
  change (load_saved_order s2) with (load_saved_order s).
  destruct (str_in_json layer_name (load_saved_order s)) eqn:Hin.
  - by rewrite save_order_writable.
  - cbn [snd]. change (load_saved_order s2) with (load_saved_order s).
    symmetry. apply filter_all. intros n Hn.
    destruct (json_eq_str n layer_name) eqn:Heq; [|done].
    destruct n; try done. cbn in Heq. apply bool_decide_eq_true in Heq as ->.
    apply str_in_json_spec in Hn. congruence.
Qed.
End delete_more.

(** ** Bounds with a NaN in front *)

Lemma py_min_nan (rest : list spec_float) : py_min S754_nan rest = S754_nan.
Proof.
  unfold py_min. induction rest as [|x rest IH]; [done|]. cbn [foldl].
  by destruct x.
Qed.

Lemma py_max_nan (rest : list spec_float) : py_max S754_nan rest = S754_nan.
Proof.
  unfold py_max. induction rest as [|x rest IH]; [done|]. cbn [foldl].
  by destruct x.
Qed.

(** X18.  A NaN coordinate in the first box is never replaced: the matching
    coordinate of the bounds is NaN whatever the other boxes are. *)
Theorem bounds_of_leading_nan (b : bbox) (others : list bbox) :
  ∃ r, bounds_of (b :: others) = Some r
    ∧ (is_nan (miny b) = true → r.1.1 = S754_nan)
    ∧ (is_nan (minx b) = true → r.1.2 = S754_nan)
    ∧ (is_nan (maxy b) = true → r.2.1 = S754_nan)
    ∧ (is_nan (maxx b) = true → r.2.2 = S754_nan).
Proof.
  eexists. split; [done|]. cbn [fst snd].
  split_and!; intros Hnan;
    [destruct (miny b)|destruct (minx b)|destruct (maxy b)|destruct (maxx b)];
    try done; apply py_min_nan || apply py_max_nan.
Qed.

(** ** Bounds with a NaN further on *)

Lemma is_nan_true (f : spec_float) : is_nan f = true → f = S754_nan.
Proof. by destruct f. Qed.

Lemma SFltb_nan_r (a : spec_float) : SFltb a S754_nan = false.
Proof. by destruct a as [[]|[]| |[] ? ?]. Qed.

Lemma py_min_skip_nan (first : spec_float) (before after : list spec_float) :
  py_min first (before ++ S754_nan :: after) = py_min first (before ++ after).
Proof. unfold py_min. by rewrite !foldl_app. Qed.

Lemma py_max_skip_nan (first : spec_float) (before after : list spec_float) :
  py_max first (before ++ S754_nan :: after) = py_max first (before ++ after).
Proof. unfold py_max. rewrite !foldl_app. cbn [foldl]. by rewrite SFltb_nan_r. Qed.

(** X23.  A box of NaN collected after the first one is passed over: the
    bounds are those of the other boxes. *)
Theorem bounds_of_skips_later_nan (b nanbox : bbox) (before after : list bbox) :
  all_nan nanbox →
  bounds_of (b :: before ++ nanbox :: after) = bounds_of (b :: before ++ after).
Proof.
  intros (Hx0%is_nan_true & Hy0%is_nan_true & Hx1%is_nan_true & Hy1%is_nan_true).
  cbn [bounds_of]. rewrite !fmap_app, !fmap_cons, Hx0, Hy0, Hx1, Hy1.
  by rewrite !py_min_skip_nan, !py_max_skip_nan.
Qed.

Lemma bounds_of_drop_nan (b : bbox) (before others : list bbox) :
  Forall (λ x, bbox_numeric x ∨ all_nan x) others →
  bounds_of (b :: before ++ others)
  = bounds_of (b :: before ++ filter (λ x, ¬ all_nan x) others).
Proof.
  revert before. induction others as [|x others IH]; intros before Hall; [done|].
  apply Forall_cons in Hall as [Hx Hall]. rewrite filter_cons.
  destruct (decide (¬ all_nan x)) as [Hnum|Hnan].
  - rewrite (cons_middle x before others), (cons_middle x before (filter _ _)).
    rewrite !app_assoc. by apply IH.
  - apply dec_stable in Hnan. rewrite <-(IH before Hall).
    destruct Hnan as (Hx0%is_nan_true & Hy0%is_nan_true & Hx1%is_nan_true
                      & Hy1%is_nan_true).
    cbn [bounds_of]. rewrite !fmap_app, !fmap_cons, Hx0, Hy0, Hx1, Hy1.
    by rewrite !py_min_skip_nan, !py_max_skip_nan.
Qed.

Lemma numeric_not_all_nan (b : bbox) : bbox_numeric b → ¬ all_nan b.
Proof. intros (Hnum & _) (Hnan & _). congruence. Qed.

Lemma bounds_of_numeric_first (b : bbox) (others : list bbox) :
  bbox_numeric b →
  Forall (λ x, bbox_numeric x ∨ all_nan x) others →
  ∃ r, bounds_of (b :: others) = Some r
       ∧ union_rect r (b :: filter (λ x, ¬ all_nan x) others).
Proof.
  intros Hb Hall. pose proof (bounds_of_drop_nan b [] others Hall) as Hdrop.
  cbn [app] in Hdrop. rewrite Hdrop.
  apply bounds_of_union; [done|]. apply Forall_cons. split; [done|].
  apply Forall_forall. intros x [Hnot Hx]%list_elem_of_filter.
  rewrite Forall_forall in Hall. by destruct (Hall x Hx).
Qed.

Lemma NoDup_only (l : list string) (name : string) :
  NoDup l → (∀ x, x ∈ l ↔ x = name) → l = [name].
Proof.
  intros Hnd Hl. destruct l as [|a [|b l]].
  - by destruct (not_elem_of_nil name); apply Hl.
  - f_equal. apply Hl. left.
  - apply NoDup_cons in Hnd as [Ha _]. destruct Ha.
    rewrite (proj1 (Hl a)) by left. rewrite (proj1 (Hl b)) by (right; left). left.
Qed.

Section listing_more.
Context `{World}.
Implicit Types (s : server).

(** X15.  The order of a listing holds every registered name and nothing else,
    without repetition, whatever the order file holds. *)
Theorem listing_order_is_registry (admin : bool) s :
  ∃ resp,
    get_layers admin s = Some resp
    ∧ NoDup (order resp)
    ∧ ∀ name, name ∈ order resp ↔ name ∈ keys (layers s).
Proof.
  destruct (get_layers_listing admin s) as (resp & Hresp & _ & Hord & _).
  exists resp. rewrite Hord. split_and!; [done|apply NoDup_reconcile|].
  intros name. apply elem_of_reconcile.
Qed.

(** X16.  With no layer registered the listing is empty: no layers, an empty
    order and no bounds, whatever the order file holds. *)
Theorem listing_empty_registry (admin : bool) s :
  layers s = [] →
  get_layers admin s
  = Some {| is_admin := admin; listed_layers := []; order := []; bounds := None |}.
Proof.
  intros Hempty.
  destruct (get_layers_listing admin s)
    as (resp & Hresp & Hadm & Hord & Hkeys & _ & Hb).
  assert (order resp = []) as Hnil.
  { apply elem_of_nil_inv. intros name. rewrite Hord, elem_of_reconcile, Hempty.
    apply not_elem_of_nil. }
  rewrite Hresp, Hnil in *. destruct resp as [a l o b].
  cbn [is_admin listed_layers order bounds] in *.
  destruct l; [|discriminate Hkeys]. by subst.
Qed.

(** X17.  With a single layer registered, the listing shows that layer and its
    bounds are the box of the layer, as [[miny, minx], [maxy, maxx]], or
    nothing when the box cannot be computed. *)
Theorem listing_single_layer_bounds (admin : bool) (name : string)
    (lyr : layer) s :
  layers s = [(name, lyr)] →
  ∃ resp,
    get_layers admin s = Some resp
    ∧ order resp = [name]
    ∧ listed_layers resp = [(name, lyr)]
    ∧ bounds resp
      = (λ b, ((miny b, minx b), (maxy b, maxx b))) <$> total_bounds (geojson lyr).
Proof.
  intros Hone.
  destruct (get_layers_listing admin s)
    as (resp & Hresp & _ & Hord & Hkeys & Hget & Hb).
  assert (order resp = [name]) as Horder.
  { apply NoDup_only; rewrite Hord; [apply NoDup_reconcile|].
    intros x. rewrite elem_of_reconcile, Hone. unfold keys.
    rewrite fmap_cons, fmap_nil. apply list_elem_of_singleton. }
  assert (listed_layers resp = [(name, lyr)]) as Hlisted.
  { apply dict_single; [by rewrite Hkeys|].
    rewrite Hget by (rewrite Horder; left). rewrite Hone. cbn.
    by rewrite decide_True. }
  exists resp. split_and!; [done..|].
  rewrite Hb, Hlisted. unfold collect_bounds. cbn.
  by destruct (total_bounds (geojson lyr)).
Qed.

(** X27.  When the first layer that gives a box gives a numeric one, and the
    boxes of the other layers are numeric or all NaN, the bounds of the
    listing are the union rectangle of the numeric boxes: the layers without
    geometry are passed over. *)
Theorem listing_bounds_pass_over_null_layers (admin : bool) s :
  ∃ resp,
    get_layers admin s = Some resp
    ∧ ∀ b others,
        omap (λ lyr, total_bounds (geojson lyr)) (values (listed_layers resp))
        = b :: others →
        bbox_numeric b →
        Forall (λ x, bbox_numeric x ∨ all_nan x) others →
        ∃ r, bounds resp = Some r
             ∧ union_rect r (b :: filter (λ x, ¬ all_nan x) others).
Proof.
  destruct (get_layers_listing admin s) as (resp & Hresp & _ & _ & _ & _ & Hb).
  exists resp. split; [done|]. intros b others Hyield Hnum Hall.
  rewrite Hb. unfold collect_bounds. rewrite Hyield.
  by apply bounds_of_numeric_first.
Qed.
End listing_more.

(** ** Sessions *)

Lemma json_eq_str_true (n : json) (s : string) :
  json_eq_str n s = true ↔ n = JStr s.
Proof.
  destruct n; cbn; try (split; [done|by intros [=]]).
  rewrite bool_decide_eq_true. split; [by intros ->|by intros [= ->]].
Qed.

(** X22.  [login_api] answers [LoggedIn] exactly when the body is an object
    whose [username] is the string "admin" and whose [password] is the
    string "1234"; it then sets the admin flag, and otherwise leaves the
    session as it was. *)
Theorem login_grants_admin_iff (data : json) (session_admin : bool) :
  let r := login_api data session_admin in
  (r.1 = LoggedIn ↔ subscript data "username" = Some (JStr "admin")
                     ∧ subscript data "password" = Some (JStr "1234"))
  ∧ (r.1 = LoggedIn → r.2 = true)
  ∧ (r.1 ≠ LoggedIn → r.2 = session_admin).
Proof.
  unfold login_api.
  destruct (subscript data "username") as [u|]; [|by intuition].
  destruct (json_eq_str u ADMIN_USER) eqn:Hu.
  - apply json_eq_str_true in Hu as ->.
    destruct (subscript data "password") as [p|]; [|by intuition].
    destruct (json_eq_str p ADMIN_PASS) eqn:Hp.
    + apply json_eq_str_true in Hp as ->. by intuition.
    + cbn. split_and!; [|done..]. split; [done|]. intros [_ [= ->]].
      cbn in Hp. by rewrite bool_decide_eq_true_2 in Hp.
  - cbn. split_and!; [|done..]. split; [done|]. intros [[= ->] _].
    cbn in Hu. by rewrite bool_decide_eq_true_2 in Hu.
Qed.

Section startup_more.
Context `{World}.
Implicit Types (s : server).

(** ** Start-up *)

Lemma ensure_order_file_spec s :
  layers (ensure_order_file s) = layers s
  ∧ folder (ensure_order_file s) = folder s
  ∧ order_writable (ensure_order_file s) = order_writable s
  ∧ (order_file s = Missing → order_writable s = true →
     order_file (ensure_order_file s) = Document (JList DEFAULT_LAYER_ORDER)).
Proof.
  unfold ensure_order_file, save_order.
  destruct (order_file s) eqn:Hf; destruct (order_writable s) eqn:Hw;
    destruct (fails_after_open s); cbn; by rewrite ?Hf, ?Hw.
Qed.

Lemma load_github_one_spec (fetch : string → option string) s
    (entry : string * string) :
  let s' := load_github_one fetch s entry in
  let name := layer_name_of (path_join UPLOAD_FOLDER (entry.1 +:+ ".zip")) in
  order_file s' = order_file s
  ∧ order_writable s' = order_writable s
  ∧ (∀ path, is_Some (folder s !! path) → is_Some (folder s' !! path))
  ∧ (∀ k, k ∈ keys (layers s') → k ∈ keys (layers s) ∨ k = name).
Proof.
  destruct entry as [layer_name url]. cbn [fst]. unfold load_github_one.
  set (path := path_join UPLOAD_FOLDER (layer_name +:+ ".zip")).
  destruct (folder s !! path) as [bytes|] eqn:Hpath.
  - destruct (load_zip_frame path s) as (Hf & Hw & Hfo).
    destruct (load_zip_keys path s) as (_ & Hk & _).
    split_and!; [done|done| |].
    + intros p. by rewrite Hfo.
    + intros k Hin. destruct (Hk k Hin) as [?|[_ ?]]; auto.
  - destruct (fetch url) as [content|].
    2:{ split_and!; auto. }
    set (s1 := with_folder s _).
    destruct (load_zip_frame path s1) as (Hf & Hw & Hfo).
    destruct (load_zip_keys path s1) as (_ & Hk & _).
    split_and!; [done|done| |].
    + intros p Hp. rewrite Hfo. cbn.
      destruct (decide (path = p)) as [->|Hne].
      * rewrite lookup_insert_eq. by eexists.
      * by rewrite lookup_insert_ne.
    + intros k Hin. destruct (Hk k Hin) as [?|[_ ?]]; auto.
Qed.

Lemma load_github_shapefiles_spec (fetch : string → option string) s :
  let s' := load_github_shapefiles fetch s in
  order_file s' = order_file s
  ∧ order_writable s' = order_writable s
  ∧ (∀ k, k ∈ keys (layers s') →
       k ∈ keys (layers s) ∨ k = "Taluka" ∨ k = "P_Location").
Proof.
  unfold load_github_shapefiles, GITHUB_SHAPEFILES. cbn [foldl].
  set (e1 := ("Taluka", _)). set (e2 := ("P_Location", _)).
  destruct (load_github_one_spec fetch s e1) as (Hf1 & Hw1 & _ & Hk1).
  destruct (load_github_one_spec fetch (load_github_one fetch s e1) e2)
    as (Hf2 & Hw2 & _ & Hk2).
  split_and!; [congruence..|].
  intros k Hk. destruct (Hk2 k Hk) as [Hin| ->]; [|by auto].
  destruct (Hk1 k Hin) as [?| ->]; by auto.
Qed.

(** X19.  After start-up the registry holds no layer other than the two
    bootstrap layers (archives left in the upload folder by earlier uploads
    are not loaded back), and when the order file can be written every
    registered name is in the saved order. *)
Theorem startup_registry_and_order (fetch : string → option string) s :
  let s' := startup fetch s in
  (∀ name, name ∈ keys (layers s') → name = "Taluka" ∨ name = "P_Location")
  ∧ (order_writable s = true →
     ∀ name, name ∈ keys (layers s') → JStr name ∈ load_saved_order s').
Proof.
  unfold startup.
  destruct (ensure_order_file_spec s) as (_ & _ & Hw0 & _).
  set (s0 := with_layers (ensure_order_file s) []).
  destruct (load_github_shapefiles_spec fetch s0) as (Hf & Hw & Hk).
  set (s1 := load_github_shapefiles fetch s0) in *.
  cbn zeta. rewrite save_order_layers. split.
  - intros name Hin. destruct (Hk name Hin) as [Hnil|?]; [|done].
    by apply elem_of_nil in Hnil.
  - intros Hwr name Hin. rewrite save_order_writable by (rewrite Hw; cbn; congruence).
    cbn. apply elem_of_extend_order. by right.
Qed.

(** X20.  Started without an order file, with both bootstrap layers loaded, the
    saved order and the listing order are [P_Location], [Taluka]. *)
Theorem first_boot_listing (admin : bool) (fetch : string → option string) s :
  order_file s = Missing →
  order_writable s = true →
  keys (layers (startup fetch s)) = ["Taluka"; "P_Location"] →
  load_saved_order (startup fetch s) = [JStr "P_Location"; JStr "Taluka"]
  ∧ ∃ resp, get_layers admin (startup fetch s) = Some resp
            ∧ order resp = ["P_Location"; "Taluka"].
Proof.
  intros Hmiss Hwr Hkeys.
  assert (load_saved_order (startup fetch s) = [JStr "P_Location"; JStr "Taluka"])
    as Hload.
  { revert Hkeys. unfold startup.
    destruct (ensure_order_file_spec s) as (_ & _ & Hw0 & Hf0).
    set (s0 := with_layers (ensure_order_file s) []).
    destruct (load_github_shapefiles_spec fetch s0) as (Hf & Hw & _).
    set (s1 := load_github_shapefiles fetch s0) in *.
    assert (load_saved_order s1 = DEFAULT_LAYER_ORDER) as Hl1.
    { unfold load_saved_order. rewrite Hf.
      change (order_file s0) with (order_file (ensure_order_file s)).
      by rewrite (Hf0 Hmiss Hwr). }
    cbn zeta. rewrite save_order_layers. intros Hkeys.
    rewrite save_order_writable by (rewrite Hw; cbn; congruence).
    cbn [snd].
    change (extend_order (load_saved_order s1) (keys (layers s1))
            = [JStr "P_Location"; JStr "Taluka"]).
    by rewrite Hl1, Hkeys. }
  split; [done|].
  destruct (get_layers_listing admin (startup fetch s))
    as (resp & Hresp & _ & Hord & _).
  exists resp. split; [done|]. by rewrite Hord, Hload, Hkeys.
Qed.

(** X21.  When both bootstrap archives are in the upload folder, start-up does
    not depend on the network: nothing is downloaded. *)
Theorem startup_uses_local_copies (fetch fetch' : string → option string) s :
  is_Some (folder s !! "uploads/Taluka.zip") →
  is_Some (folder s !! "uploads/P_Location.zip") →
  startup fetch s = startup fetch' s.
Proof.
  intros [b1 H1] H2. unfold startup.
  destruct (ensure_order_file_spec s) as (_ & Hfo & _).
  set (s0 := with_layers (ensure_order_file s) []).
  assert (load_github_shapefiles fetch s0 = load_github_shapefiles fetch' s0)
    as ->; [|done].
  unfold load_github_shapefiles, GITHUB_SHAPEFILES. cbn [foldl].
  assert (∀ f, load_github_one f s0
      ("Taluka", "https://github.com/himgis/webgis/raw/master/uploads/Taluka.zip")
      = (load_zip_into_layers "uploads/Taluka.zip" s0).2) as Hfirst.
  { intros f. unfold load_github_one.
    change (path_join UPLOAD_FOLDER ("Taluka" +:+ ".zip")) with "uploads/Taluka.zip".
    change (folder s0) with (folder (ensure_order_file s)). by rewrite Hfo, H1. }
  rewrite !Hfirst.
  destruct (load_zip_frame "uploads/Taluka.zip" s0) as (_ & _ & Hfo1).
  set (s1 := (load_zip_into_layers "uploads/Taluka.zip" s0).2) in *.
  assert (is_Some (folder s1 !! "uploads/P_Location.zip")) as [b2 Hb2].
  { rewrite Hfo1. change (folder s0) with (folder (ensure_order_file s)).
    by rewrite Hfo. }
  unfold load_github_one.
  change (path_join UPLOAD_FOLDER ("P_Location" +:+ ".zip"))
    with "uploads/P_Location.zip".
  by rewrite Hb2.
Qed.
End startup_more.

(** ** More concrete runs *)

Lemma listing_after_set_order_witness :
  get "order" [("order", JList [JStr "a"; JStr "zz"; JStr "a"])]
  = Some (JList [JStr "a"; JStr "zz"; JStr "a"])
  ∧ order_writable Demo.two_layers = true
  ∧ (let r := set_order true
                (JObj [("order", JList [JStr "a"; JStr "zz"; JStr "a"])])
                Demo.two_layers in
     ∃ cleaned resp,
       r.1 = OrderSaved cleaned
       ∧ get_layers false r.2 = Some resp
       ∧ order resp = dedup_first cleaned
       ∧ (NoDup cleaned → order resp = cleaned)).
Proof.
  split_and!; [reflexivity|reflexivity|].
  exact (listing_after_set_order false
           [("order", JList [JStr "a"; JStr "zz"; JStr "a"])]
           [JStr "a"; JStr "zz"; JStr "a"] Demo.two_layers eq_refl eq_refl).
Defined.

Lemma set_order_without_order_witness :
  dict_wf (layers Demo.two_layers)
  ∧ order_writable Demo.two_layers = true
  ∧ (truthy JNull = false ∨ (∃ o, JNull = JObj o ∧ get "order" o = None))
  ∧ set_order true JNull Demo.two_layers
    = (OrderSaved (keys (layers Demo.two_layers)),
       with_order_file Demo.two_layers
         (Document (JList (JStr <$> keys (layers Demo.two_layers))))).
Proof.
  assert (Hwf : dict_wf (layers Demo.two_layers)) by compute_done.
  split_and!; [exact Hwf|reflexivity|left; reflexivity|].
  exact (set_order_without_order JNull Demo.two_layers Hwf eq_refl
           (or_introl eq_refl)).
Defined.

Lemma upload_saved_order_covers_registry_witness :
  getlist "files" DemoStart.one_file ≠ []
  ∧ savable_batch Demo.two_layers (getlist "files" DemoStart.one_file)
  ∧ order_writable Demo.two_layers = true
  ∧ (let s' := (upload_shapefiles true DemoStart.one_file Demo.two_layers).2 in
     load_saved_order Demo.two_layers `prefix_of` load_saved_order s'
     ∧ ∀ name, name ∈ keys (layers s') → JStr name ∈ load_saved_order s').
Proof.
  assert (Hfiles : getlist "files" DemoStart.one_file ≠ []) by compute_done.
  assert (Hsav : savable_batch Demo.two_layers
                   (getlist "files" DemoStart.one_file))
    by (repeat constructor).
  split_and!; [exact Hfiles|exact Hsav|reflexivity|].
  exact (upload_saved_order_covers_registry DemoStart.one_file Demo.two_layers
           Hfiles Hsav eq_refl).
Defined.

Lemma listing_after_upload_witness :
  dict_wf (layers Demo.two_layers)
  ∧ getlist "files" DemoStart.one_file ≠ []
  ∧ savable_batch Demo.two_layers (getlist "files" DemoStart.one_file)
  ∧ order_writable Demo.two_layers = true
  ∧ (let s' := (upload_shapefiles true DemoStart.one_file Demo.two_layers).2 in
     let loaded := load_saved_order Demo.two_layers in
     ∃ resp,
       get_layers false s' = Some resp
       ∧ order resp
         = kept_names loaded (keys (layers s'))
           ++ filter (λ name, name ∉ json_strs loaded) (keys (layers s'))).
Proof.
  assert (Hwf : dict_wf (layers Demo.two_layers)) by compute_done.
  assert (Hfiles : getlist "files" DemoStart.one_file ≠ []) by compute_done.
  assert (Hsav : savable_batch Demo.two_layers
                   (getlist "files" DemoStart.one_file))
    by (repeat constructor).
  split_and!; [exact Hwf|exact Hfiles|exact Hsav|reflexivity|].
  exact (listing_after_upload false DemoStart.one_file Demo.two_layers
           Hwf Hfiles Hsav eq_refl).
Defined.

Lemma listing_after_upload_example :
  option_map order
    (get_layers false (upload_shapefiles true Demo.batch Demo.two_layers).2)
  = Some ["b"; "a"].
Proof. by vm_compute. Qed.

Lemma delete_saved_order_witness :
  "A" ∈ keys (layers (Demo.one_layer true))
  ∧ order_writable (Demo.one_layer true) = true
  ∧ load_saved_order (delete_layer true "A" (Demo.one_layer true)).2
    = filter (λ n, json_eq_str n "A" = false)
        (load_saved_order (Demo.one_layer true)).
Proof.
  assert (Hin : "A" ∈ keys (layers (Demo.one_layer true))) by compute_done.
  split_and!; [exact Hin|reflexivity|].
  exact (delete_saved_order "A" (Demo.one_layer true) Hin eq_refl).
Defined.

Lemma listing_empty_registry_witness :
  layers DemoStart.first_boot = []
  ∧ get_layers true DemoStart.first_boot
    = Some {| is_admin := true; listed_layers := []; order := [];
              bounds := None |}.
Proof.
  split; [reflexivity|].
  exact (listing_empty_registry true DemoStart.first_boot eq_refl).
Defined.

Lemma listing_single_layer_bounds_witness :
  layers (Demo.one_layer true) = [("A", Demo.lyr (Some Demo.box_a) "uploads/A.zip")]
  ∧ ∃ resp,
      get_layers false (Demo.one_layer true) = Some resp
      ∧ order resp = ["A"]
      ∧ listed_layers resp = [("A", Demo.lyr (Some Demo.box_a) "uploads/A.zip")]
      ∧ bounds resp
        = (λ b, ((miny b, minx b), (maxy b, maxx b)))
            <$> total_bounds (geojson (Demo.lyr (Some Demo.box_a) "uploads/A.zip")).
Proof.
  split; [reflexivity|].
  exact (listing_single_layer_bounds false "A"
           (Demo.lyr (Some Demo.box_a) "uploads/A.zip") (Demo.one_layer true)
           eq_refl).
Defined.

Lemma load_zip_registers_layer_witness :
  folder DemoStart.cached !! "uploads/Taluka.zip" = Some "a"
  ∧ read_archive "a" = Some (Some Demo.box_a)
  ∧ (let r := load_zip_into_layers "uploads/Taluka.zip" DemoStart.cached in
     let name := layer_name_of "uploads/Taluka.zip" in
     r.1 = true
     ∧ (∃ lyr, get name (layers r.2) = Some lyr
               ∧ geojson lyr = Some Demo.box_a
               ∧ zip_path lyr = "uploads/Taluka.zip"
               ∧ opacity lyr = opacity_default)
     ∧ (∀ k, k ≠ name → get k (layers r.2) = get k (layers DemoStart.cached))
     ∧ keys (layers r.2)
       = (if decide (name ∈ keys (layers DemoStart.cached))
          then keys (layers DemoStart.cached)
          else keys (layers DemoStart.cached) ++ [name])).
Proof.
  assert (Hf : folder DemoStart.cached !! "uploads/Taluka.zip" = Some "a")
    by (vm_compute; reflexivity).
  split_and!; [exact Hf|reflexivity|].
  exact (load_zip_registers_layer "uploads/Taluka.zip" "a" (Some Demo.box_a)
           DemoStart.cached Hf eq_refl).
Defined.


Lemma first_boot_listing_witness :
  order_file DemoStart.first_boot = Missing
  ∧ order_writable DemoStart.first_boot = true
  ∧ keys (layers (startup DemoStart.fetch DemoStart.first_boot))
    = ["Taluka"; "P_Location"]
  ∧ load_saved_order (startup DemoStart.fetch DemoStart.first_boot)
    = [JStr "P_Location"; JStr "Taluka"]
  ∧ ∃ resp, get_layers false (startup DemoStart.fetch DemoStart.first_boot)
            = Some resp
            ∧ order resp = ["P_Location"; "Taluka"].
Proof.
  assert (Hkeys : keys (layers (startup DemoStart.fetch DemoStart.first_boot))
                  = ["Taluka"; "P_Location"]) by (vm_compute; reflexivity).
  split_and!; [reflexivity|reflexivity|exact Hkeys|..];
    apply (first_boot_listing false DemoStart.fetch DemoStart.first_boot
             eq_refl eq_refl Hkeys).
Defined.

Lemma startup_uses_local_copies_witness :
  is_Some (folder DemoStart.cached !! "uploads/Taluka.zip")
  ∧ is_Some (folder DemoStart.cached !! "uploads/P_Location.zip")
  ∧ startup DemoStart.fetch DemoStart.cached
    = startup DemoStart.offline DemoStart.cached.
Proof.
  assert (H1 : is_Some (folder DemoStart.cached !! "uploads/Taluka.zip"))
    by compute_done.
  assert (H2 : is_Some (folder DemoStart.cached !! "uploads/P_Location.zip"))
    by compute_done.
  split_and!; [exact H1|exact H2|].
  exact (startup_uses_local_copies DemoStart.fetch DemoStart.offline
           DemoStart.cached H1 H2).
Defined.

Lemma upload_keeps_registered_layers_witness :
  "b" ∈ keys (layers Demo.two_layers)
  ∧ "b" ∈ keys (layers (upload_shapefiles true DemoStart.one_file
                          Demo.two_layers).2).
Proof.
  assert (Hin : "b" ∈ keys (layers Demo.two_layers)) by compute_done.
  split; [exact Hin|].
  exact (upload_keeps_registered_layers true DemoStart.one_file Demo.two_layers
           "b" Hin).
Defined.

Lemma bounds_of_skips_later_nan_witness :
  all_nan Demo.box_nan
  ∧ bounds_of (Demo.box_b :: [] ++ Demo.box_nan :: [Demo.box_a])
    = bounds_of (Demo.box_b :: [] ++ [Demo.box_a]).
Proof.
  assert (Hnan : all_nan Demo.box_nan) by (by repeat split).
  split; [exact Hnan|].
  exact (bounds_of_skips_later_nan Demo.box_b Demo.box_nan [] [Demo.box_a] Hnan).
Defined.

Lemma listing_bounds_pass_over_null_layers_witness :
  ∃ resp,
    get_layers false DemoStart.null_last = Some resp
    ∧ omap (λ lyr, total_bounds (geojson lyr)) (values (listed_layers resp))
      = Demo.box_b :: [Demo.box_nan]
    ∧ bbox_numeric Demo.box_b
    ∧ Forall (λ x, bbox_numeric x ∨ all_nan x) [Demo.box_nan]
    ∧ ∃ r, bounds resp = Some r
           ∧ union_rect r (Demo.box_b :: filter (λ x, ¬ all_nan x) [Demo.box_nan]).
Proof.
  destruct (listing_bounds_pass_over_null_layers false DemoStart.null_last)
    as (resp & Hresp & Hbounds).
  exists resp. vm_compute in Hresp. injection Hresp as <-.
  assert (Hnum : bbox_numeric Demo.box_b) by (by repeat split).
  assert (Hall : Forall (λ x, bbox_numeric x ∨ all_nan x) [Demo.box_nan])
    by (repeat constructor; right; by repeat split).
  split_and!; [reflexivity|reflexivity|exact Hnum|exact Hall|].
  exact (Hbounds Demo.box_b [Demo.box_nan] eq_refl Hnum Hall).
Defined.

Lemma upload_unsavable_file_raises_witness :
  Exists (unsavable Demo.fresh) (getlist "files" DemoStart.blocked_last)
  ∧ (let r := upload_shapefiles true DemoStart.blocked_last Demo.fresh in
     r.1 = UploadRaised ∧ order_file r.2 = order_file Demo.fresh).
Proof.
  assert (Hex : Exists (unsavable Demo.fresh)
                  (getlist "files" DemoStart.blocked_last)).
  { apply Exists_cons_tl, Exists_cons_hd. split; reflexivity. }
  split; [exact Hex|].
  exact (upload_unsavable_file_raises DemoStart.blocked_last Demo.fresh Hex).
Defined.
